(** * The chat composer: [src/components/ChatInput.tsx]

    A shallow embedding of the [ChatInput] React component: its props, its
    hook state, the browser objects it touches (object URLs, file readers,
    the speech recogniser, the textarea's measured height) and its event
    handlers, followed by the properties of the composer that the
    specification states.

    Conventions.
    - A JavaScript string is a [string]; a character stands for one code
      unit in the one-byte range.
    - A pixel length is an [N].
    - Every handler is a total function [Composer -> Composer]. The
      handlers of the draft, of the attachments, of the keyboard and of the
      model selector perform no operation that throws on a well-typed
      input, so that raising no error is their totality.
    - The props [value], [isLoading] and [selectedModel] live in the same
      record as the hook state; the callbacks that change them belong to the
      parent component and are modelled in section "The caller". *)

From Stdlib Require Import Ascii NArith ZArith Bool Lia.
From stdpp Require Import base list gmap strings.

Local Open Scope N_scope.

(** ** JavaScript strings *)

Module Js.

(** [WhiteSpace] and [LineTerminator] of ECMAScript, among one-byte code
    units: TAB, LF, VT, FF, CR, SP and NBSP. *)
Definition is_ws (c : ascii) : bool :=
  let n := N_of_ascii c in
  (n =? 9) || (n =? 10) || (n =? 11) || (n =? 12) || (n =? 13)
  || (n =? 32) || (n =? 160).

Fixpoint trimStart (s : string) : string :=
  match s with
  | EmptyString => EmptyString
  | String c r => if is_ws c then trimStart r else s
  end.

Fixpoint trimEnd (s : string) : string :=
  match s with
  | EmptyString => EmptyString
  | String c r =>
      match trimEnd r with
      | EmptyString => if is_ws c then EmptyString else String c EmptyString
      | r' => String c r'
      end
  end.

(** [String.prototype.trim]. *)
Definition trim (s : string) : string := trimEnd (trimStart s).

(** Truthiness of a string: every string but the empty one. *)
Definition truthy (s : string) : bool :=
  match s with
  | EmptyString => false
  | String _ _ => true
  end.

(** [s.split(sep)] for a one-character separator. *)
Fixpoint split (sep : ascii) (s : string) : list string :=
  match s with
  | EmptyString => [EmptyString]
  | String c r =>
      if Ascii.eqb c sep then EmptyString :: split sep r
      else match split sep r with
           | [] => [String c EmptyString]
           | h :: t => String c h :: t
           end
  end.

(** [l[i]] for a number [i] that is an integer: [undefined] out of range. *)
Definition index {A} (l : list A) (i : Z) : option A :=
  if (0 <=? i)%Z then l !! Z.to_nat i else None.

(** [l.filter((_, i) => keep(i))], the element indices counted from
    [from]. *)
Fixpoint filterIndex {A} (keep : Z -> bool) (from : Z) (l : list A) : list A :=
  match l with
  | [] => []
  | x :: r =>
      if keep from then x :: filterIndex keep (from + 1)%Z r
      else filterIndex keep (from + 1)%Z r
  end.

(** All characters of [s] are white space. *)
Fixpoint all_ws (s : string) : bool :=
  match s with
  | EmptyString => true
  | String c r => is_ws c && all_ws r
  end.

End Js.

(** ** Data *)

(** A [File] of the file picker: its MIME type and the data URL that a
    [FileReader] produces for it when the read succeeds. Whether a read
    succeeds is the browser's: see [readerResult]. *)
Record File := mkFile {
  file_type : string;
  file_dataURL : string;
}.

(** [Part] of [../types]: the only shape built here is [{ inlineData }].
    [data] is [None] where JavaScript has [undefined]. *)
Record InlineData := mkInlineData {
  data : option string;
  mimeType : string;
}.

Record Part := mkPart { inlineData : InlineData }.

(** An object URL minted by [URL.createObjectURL], named by its serial
    number. *)
Definition ObjectURL := N.

(** A [SpeechRecognition] instance built by the recognition effect. Its
    handlers close over the [value] of the render that built it. *)
Record Recognizer := mkRecognizer { closure_value : string }.

(** A suspended [handleSend] activation: the [value] it closed over, the
    files still to encode (the head is being read) and the parts pushed so
    far. *)
Record SendTask := mkSendTask {
  task_value : string;
  task_files : list File;
  task_parts : list Part;
}.

(** One call of [onSendMessage(text, parts?)]. *)
Definition SendCall : Type := string * option (list Part).

Record Model := mkModel { id : string; name : string }.

Definition GEMINI_MODELS : list Model :=
  [ mkModel "gemini-2.5-flash" "Gemini 2.5 Flash";
    mkModel "gemini-2.0-flash-exp" "Gemini 2.0 Flash Exp";
    mkModel "gemma-3-27b-it" "Gemma 3 27B" ].

Record Composer := mkComposer {
  (* props *)
  value : string;
  isLoading : bool;
  selectedModel : string;
  (* useState *)
  isListening : bool;
  showModelDropdown : bool;
  selectedImages : list File;
  imagePreviews : list ObjectURL;
  lineCount : N;
  isExpanded : bool;
  (* useRef *)
  recognitionRef : option Recognizer;
  styleHeight : N;
  (* browser *)
  objectURLs : gset N;
  nextURL : N;
  session : option Recognizer;
  readers : list SendTask;
  (* caller *)
  sent : list SendCall;
}.

Section Setters.
Variable c : Composer.

Definition set_value (v : string) : Composer :=
  mkComposer v (isLoading c) (selectedModel c) (isListening c)
    (showModelDropdown c) (selectedImages c) (imagePreviews c) (lineCount c)
    (isExpanded c) (recognitionRef c) (styleHeight c) (objectURLs c)
    (nextURL c) (session c) (readers c) (sent c).

Definition set_isLoading (b : bool) : Composer :=
  mkComposer (value c) b (selectedModel c) (isListening c)
    (showModelDropdown c) (selectedImages c) (imagePreviews c) (lineCount c)
    (isExpanded c) (recognitionRef c) (styleHeight c) (objectURLs c)
    (nextURL c) (session c) (readers c) (sent c).

Definition set_selectedModel (m : string) : Composer :=
  mkComposer (value c) (isLoading c) m (isListening c)
    (showModelDropdown c) (selectedImages c) (imagePreviews c) (lineCount c)
    (isExpanded c) (recognitionRef c) (styleHeight c) (objectURLs c)
    (nextURL c) (session c) (readers c) (sent c).

Definition setIsListening (b : bool) : Composer :=
  mkComposer (value c) (isLoading c) (selectedModel c) b
    (showModelDropdown c) (selectedImages c) (imagePreviews c) (lineCount c)
    (isExpanded c) (recognitionRef c) (styleHeight c) (objectURLs c)
    (nextURL c) (session c) (readers c) (sent c).

Definition setShowModelDropdown (b : bool) : Composer :=
  mkComposer (value c) (isLoading c) (selectedModel c) (isListening c)
    b (selectedImages c) (imagePreviews c) (lineCount c)
    (isExpanded c) (recognitionRef c) (styleHeight c) (objectURLs c)
    (nextURL c) (session c) (readers c) (sent c).

Definition setSelectedImages (l : list File) : Composer :=
  mkComposer (value c) (isLoading c) (selectedModel c) (isListening c)
    (showModelDropdown c) l (imagePreviews c) (lineCount c)
    (isExpanded c) (recognitionRef c) (styleHeight c) (objectURLs c)
    (nextURL c) (session c) (readers c) (sent c).

Definition setImagePreviews (l : list ObjectURL) : Composer :=
  mkComposer (value c) (isLoading c) (selectedModel c) (isListening c)
    (showModelDropdown c) (selectedImages c) l (lineCount c)
    (isExpanded c) (recognitionRef c) (styleHeight c) (objectURLs c)
    (nextURL c) (session c) (readers c) (sent c).

Definition setLineCount (n : N) : Composer :=
  mkComposer (value c) (isLoading c) (selectedModel c) (isListening c)
    (showModelDropdown c) (selectedImages c) (imagePreviews c) n
    (isExpanded c) (recognitionRef c) (styleHeight c) (objectURLs c)
    (nextURL c) (session c) (readers c) (sent c).

Definition setIsExpanded (b : bool) : Composer :=
  mkComposer (value c) (isLoading c) (selectedModel c) (isListening c)
    (showModelDropdown c) (selectedImages c) (imagePreviews c) (lineCount c)
    b (recognitionRef c) (styleHeight c) (objectURLs c)
    (nextURL c) (session c) (readers c) (sent c).

Definition set_recognitionRef (r : option Recognizer) : Composer :=
  mkComposer (value c) (isLoading c) (selectedModel c) (isListening c)
    (showModelDropdown c) (selectedImages c) (imagePreviews c) (lineCount c)
    (isExpanded c) r (styleHeight c) (objectURLs c)
    (nextURL c) (session c) (readers c) (sent c).

Definition set_styleHeight (h : N) : Composer :=
  mkComposer (value c) (isLoading c) (selectedModel c) (isListening c)
    (showModelDropdown c) (selectedImages c) (imagePreviews c) (lineCount c)
    (isExpanded c) (recognitionRef c) h (objectURLs c)
    (nextURL c) (session c) (readers c) (sent c).

Definition set_objectURLs (s : gset N) : Composer :=
  mkComposer (value c) (isLoading c) (selectedModel c) (isListening c)
    (showModelDropdown c) (selectedImages c) (imagePreviews c) (lineCount c)
    (isExpanded c) (recognitionRef c) (styleHeight c) s
    (nextURL c) (session c) (readers c) (sent c).

Definition set_nextURL (n : N) : Composer :=
  mkComposer (value c) (isLoading c) (selectedModel c) (isListening c)
    (showModelDropdown c) (selectedImages c) (imagePreviews c) (lineCount c)
    (isExpanded c) (recognitionRef c) (styleHeight c) (objectURLs c)
    n (session c) (readers c) (sent c).

Definition set_session (r : option Recognizer) : Composer :=
  mkComposer (value c) (isLoading c) (selectedModel c) (isListening c)
    (showModelDropdown c) (selectedImages c) (imagePreviews c) (lineCount c)
    (isExpanded c) (recognitionRef c) (styleHeight c) (objectURLs c)
    (nextURL c) r (readers c) (sent c).

Definition set_readers (l : list SendTask) : Composer :=
  mkComposer (value c) (isLoading c) (selectedModel c) (isListening c)
    (showModelDropdown c) (selectedImages c) (imagePreviews c) (lineCount c)
    (isExpanded c) (recognitionRef c) (styleHeight c) (objectURLs c)
    (nextURL c) (session c) l (sent c).

Definition set_sent (l : list SendCall) : Composer :=
  mkComposer (value c) (isLoading c) (selectedModel c) (isListening c)
    (showModelDropdown c) (selectedImages c) (imagePreviews c) (lineCount c)
    (isExpanded c) (recognitionRef c) (styleHeight c) (objectURLs c)
    (nextURL c) (session c) (readers c) l.
End Setters.

(** ** The browser *)

(** [URL.createObjectURL(file)]: a URL never issued before, live until
    revoked. *)
Definition createObjectURL (f : File) (c : Composer) : ObjectURL * Composer :=
  let u := nextURL c in
  (u, set_nextURL (set_objectURLs c ({[u]} ∪ objectURLs c)) (u + 1)).

(** [files.map(file => URL.createObjectURL(file))]. *)
Fixpoint createObjectURLs (files : list File) (c : Composer)
  : list ObjectURL * Composer :=
  match files with
  | [] => ([], c)
  | f :: r =>
      let '(u, c1) := createObjectURL f c in
      let '(us, c2) := createObjectURLs r c1 in
      (u :: us, c2)
  end.

(** [URL.revokeObjectURL(u)]; an argument that is no live URL (such as
    [undefined]) is ignored. *)
Definition revokeObjectURL (u : option ObjectURL) (c : Composer) : Composer :=
  match u with
  | Some u => set_objectURLs c (objectURLs c ∖ {[u]})
  | None => c
  end.

(** The base64 payload that [handleSend] takes from a reader's result:
    [result.split(',')[1]]. *)
Definition base64_of (f : File) : option string :=
  Js.split "," (file_dataURL f) !! 1%nat.

Definition encode (f : File) : Part :=
  mkPart (mkInlineData (base64_of f) (file_type f)).

(** [reader.result] when [onloadend] fires: the data URL of the file, or
    [null] when the read failed or was aborted. *)
Definition readerResult (f : File) (failed : bool) : option string :=
  if failed then None else Some (file_dataURL f).

(** The part that [handleSend] pushes for a file whose reader delivered
    [result]:
    [{ inlineData: { data: result.split(',')[1], mimeType: file.type } }]. *)
Definition partOf (f : File) (result : string) : Part :=
  mkPart (mkInlineData (Js.split "," result !! 1%nat) (file_type f)).

(** ** The caller *)

(** Modelled from the spec: the parent component that owns the props is not
    among the sources. [onChange] replaces the draft text ("updateText
    replaces Draft.text"). *)
Definition onChange (v : string) (c : Composer) : Composer := set_value c v.

(** Modelled from the spec: "Selecting an entry updates SelectedModel". *)
Definition onModelChange (m : string) (c : Composer) : Composer :=
  set_selectedModel c m.

(** Modelled from the spec: MessageSender "accepts (text, optional list of
    attachments) and performs the actual send"; the caller raises its
    [isLoading] flag ("Idle -> Sending -> Idle"). The call is recorded in
    [sent]. *)
Definition onSendMessage (text : string) (parts : option (list Part))
    (c : Composer) : Composer :=
  set_isLoading (set_sent c (sent c ++ [(text, parts)])) true.

(** Modelled from the spec: the caller's send settles and it lowers
    [isLoading]. *)
Definition sendSettled (c : Composer) : Composer := set_isLoading c false.

(** ** Derived values *)

(** The test of the height effect's second branch:
    [!value || value.trim() === '']. *)
Definition isBlank (v : string) : bool :=
  negb (Js.truthy v) || String.eqb (Js.trim v) "".

(** [selectedModelName]. *)
Definition selectedModelName (selected : string) : string :=
  match find (fun m => String.eqb (id m) selected) GEMINI_MODELS with
  | Some m => if Js.truthy (name m) then name m else "gemma-3-27b-it"
  | None => "gemma-3-27b-it"
  end.

Definition showFullscreenButton (c : Composer) : bool := 2 <? lineCount c.

(** The footer shows the send button when the draft is not empty, the model
    selector and the microphone otherwise. *)
Definition showsSendButton (c : Composer) : bool :=
  Js.truthy (Js.trim (value c)) || (0 <? length (selectedImages c))%nat.

(** The guard of [handleSend]:
    [(!value.trim() && selectedImages.length === 0) || isLoading]. *)
Definition sendGate (c : Composer) : bool :=
  (negb (Js.truthy (Js.trim (value c)))
   && (length (selectedImages c) =? 0)%nat)
  || isLoading c.

(** ** Effects, handlers and events *)

Record KeyboardEvent := mkKeyboardEvent { key : string; shiftKey : bool }.

Inductive Event : Type :=
| Input (v : string)                       (* the textarea's [onChange] *)
| KeyDown (e : KeyboardEvent) (caret : nat) (* [onKeyDown], caret collapsed *)
| PickFiles (files : option (list File))   (* the file input's [onChange] *)
| ClickRemove (i : nat)                    (* the button on preview [i] *)
| ClickSend
| ReaderLoadEnd (i : nat)                  (* [onloadend] of reader [i] *)
| ClickMic
| RecognitionStart
| RecognitionEnd
| RecognitionError
| RecognitionResult (transcript : string)
| ClickModelButton
| ClickModelEntry (i : nat)
| MouseDownOutside
| ClickExpand
| SendSettled
| ReaderFailed (i : nat).                  (* [onloadend] of reader [i], no result *)

(** What the component reads from the page it runs in:
    [textareaRef.current.scrollHeight] as the layout engine reports it for a
    text and a style height, and whether
    ['SpeechRecognition' in window || 'webkitSpeechRecognition' in window]. *)
Class Platform := {
  scrollHeight : string -> N -> N;
  hasSpeechRecognition : bool;
}.

Section Component.

Context {platform : Platform}.

(** *** Effects *)

(** The height given to [textareaRef.current.style.height], in px. *)
Definition textareaHeight (v : string) (expanded : bool) : N :=
  if expanded then 480
  else if isBlank v then 40
  else N.min (scrollHeight v 40) 180.

(** The effect on [[value, isExpanded]]; [Math.ceil(h / 24)] is
    [(h + 23) / 24]. *)
Definition heightEffect (c : Composer) : Composer :=
  let h := textareaHeight (value c) (isExpanded c) in
  let c1 := set_styleHeight c h in
  setLineCount c1 ((scrollHeight (value c1) (styleHeight c1) + 23) / 24).

(** The effect on [[value, onChange]]: a new recogniser whose handlers
    close over the current [value] replaces [recognitionRef.current]. A
    recogniser that was started earlier is not stopped. *)
Definition recognitionEffect (c : Composer) : Composer :=
  if hasSpeechRecognition
  then set_recognitionRef c (Some (mkRecognizer (value c)))
  else c.

(** After the handlers of an event: the effects whose dependencies
    changed run ([onChange] keeps its identity). *)
Definition commit (before after : Composer) : Composer :=
  let c1 :=
    if String.eqb (value before) (value after)
       && Bool.eqb (isExpanded before) (isExpanded after)
    then after else heightEffect after in
  if String.eqb (value before) (value after) then c1
  else recognitionEffect c1.

(** The first render and its effects. *)
Definition mount (v : string) (loading : bool) (model : string) : Composer :=
  recognitionEffect
    (heightEffect
       (mkComposer v loading model false false [] [] 1 false None 0 ∅ 0
          None [] [])).

(** *** Speech recognition *)

(** [recognitionRef.current?.start()]: the platform holds one session; a
    start while one is active is refused and changes nothing here. *)
Definition startRecognition (c : Composer) : Composer :=
  match recognitionRef c, session c with
  | Some r, None => set_session c (Some r)
  | _, _ => c
  end.

(** [stop()] asks the platform to end; the [end] event follows. *)
Definition toggleListening (c : Composer) : Composer :=
  if isListening c then c else startRecognition c.

Definition onstart (c : Composer) : Composer := setIsListening c true.
Definition onend (c : Composer) : Composer := setIsListening c false.
Definition onerror (c : Composer) : Composer := setIsListening c false.

(** [onresult] of recogniser [r]:
    [onChange(value + (value ? ' ' : '') + transcript)], [value] being the
    one [r] closed over. *)
Definition onresult (r : Recognizer) (transcript : string) (c : Composer)
  : Composer :=
  let v := closure_value r in
  onChange (v +:+ (if Js.truthy v then " " else "") +:+ transcript) c.

(** *** Attachments *)

Definition handleImageSelect (files : option (list File)) (c : Composer)
  : Composer :=
  match files with
  | None => c
  | Some fs =>
      let c1 := setSelectedImages c (selectedImages c ++ fs) in
      let '(newPreviews, c2) := createObjectURLs fs c1 in
      setImagePreviews c2 (imagePreviews c2 ++ newPreviews)
  end.

Definition removeImage (index : Z) (c : Composer) : Composer :=
  let keep := fun i => negb (i =? index)%Z in
  let c1 := setSelectedImages c (Js.filterIndex keep 0 (selectedImages c)) in
  let c2 := revokeObjectURL (Js.index (imagePreviews c1) index) c1 in
  setImagePreviews c2 (Js.filterIndex keep 0 (imagePreviews c2)).

(** *** Sending *)

(** The tail of [handleSend], after the loop. *)
Definition finishSend (v : string) (imageParts : list Part) (c : Composer)
  : Composer :=
  let c1 :=
    onSendMessage v
      (if (0 <? length imageParts)%nat then Some imageParts else None) c in
  let c2 := onChange "" c1 in
  let c3 := setSelectedImages c2 [] in
  setImagePreviews c3 [].

(** [handleSend] up to its first [await]: with no image it runs to its
    end; otherwise it stays suspended on the reader of the first file. *)
Definition handleSend (c : Composer) : Composer :=
  if sendGate c then c
  else match selectedImages c with
       | [] => finishSend (value c) [] c
       | _ :: _ =>
           set_readers c
             (readers c ++ [mkSendTask (value c) (selectedImages c) []])
       end.

(** The reader of suspended send [i] fires [onloadend]. With a result the
    promise resolves with [result.split(',')[1]], the part is pushed and the
    loop goes on to the next file or to the tail. With [null] as result
    [result.split] throws inside the handler: the promise is never
    resolved, the activation is never resumed and makes no call. *)
Definition readerLoadEnd (i : nat) (failed : bool) (c : Composer) : Composer :=
  match readers c !! i with
  | Some (mkSendTask v (f :: rest) parts) =>
      match readerResult f failed with
      | None => set_readers c (delete i (readers c))
      | Some result =>
          let parts' := parts ++ [partOf f result] in
          match rest with
          | [] => finishSend v parts' (set_readers c (delete i (readers c)))
          | _ :: _ =>
              set_readers c (<[i := mkSendTask v rest parts']> (readers c))
          end
      end
  | _ => c
  end.

(** [handleKeyDown]: whether [preventDefault] was called, and the state. *)
Definition handleKeyDown (e : KeyboardEvent) (c : Composer)
  : bool * Composer :=
  if String.eqb (key e) "Enter" && negb (shiftKey e)
  then (true, handleSend c)
  else (false, c).

(** The textarea's own action on Enter, unless prevented: a line feed at
    the caret, reported through [onChange]. Other keys reach the component
    as [Input] events. *)
Definition insertLineBreak (caret : nat) (v : string) : string :=
  String.substring 0 caret v
  +:+ String (ascii_of_nat 10) ""
  +:+ String.substring caret (String.length v - caret) v.

Definition defaultAction (e : KeyboardEvent) (caret : nat) (c : Composer)
  : Composer :=
  if String.eqb (key e) "Enter"
  then onChange (insertLineBreak caret (value c)) c
  else c.

(** *** The model selector *)

Definition selectModel (m : Model) (c : Composer) : Composer :=
  setShowModelDropdown (onModelChange (id m) c) false.

(** [handleClickOutside]; [dropdownRef.current] is set while the selector
    is rendered. *)
Definition handleClickOutside (c : Composer) : Composer :=
  if showsSendButton c then c else setShowModelDropdown c false.

(** *** Events *)

(** An event reaches a handler only through an element that is rendered
    and enabled. *)
Definition handle (ev : Event) (c : Composer) : Composer :=
  match ev with
  | Input v => onChange v c
  | KeyDown e caret =>
      let '(prevented, c1) := handleKeyDown e c in
      if prevented then c1 else defaultAction e caret c1
  | PickFiles files => handleImageSelect files c
  | ClickRemove i =>
      if (i <? length (imagePreviews c))%nat
      then removeImage (Z.of_nat i) c else c
  | ClickSend =>
      if showsSendButton c && negb (isLoading c) then handleSend c else c
  | ReaderLoadEnd i => readerLoadEnd i false c
  | ReaderFailed i => readerLoadEnd i true c
  | ClickMic => if showsSendButton c then c else toggleListening c
  | RecognitionStart =>
      match session c with Some _ => onstart c | None => c end
  | RecognitionEnd =>
      match session c with
      | Some _ => set_session (onend c) None
      | None => c
      end
  | RecognitionError =>
      match session c with Some _ => onerror c | None => c end
  | RecognitionResult t =>
      match session c with Some r => onresult r t c | None => c end
  | ClickModelButton =>
      if showsSendButton c then c
      else setShowModelDropdown c (negb (showModelDropdown c))
  | ClickModelEntry i =>
      if showsSendButton c || negb (showModelDropdown c) then c
      else match GEMINI_MODELS !! i with
           | Some m => selectModel m c
           | None => c
           end
  | MouseDownOutside => handleClickOutside c
  | ClickExpand =>
      if showFullscreenButton c || isExpanded c
      then setIsExpanded c (negb (isExpanded c)) else c
  | SendSettled => sendSettled c
  end.

Definition step (ev : Event) (c : Composer) : Composer :=
  commit c (handle ev c).

Definition run (evs : list Event) (c : Composer) : Composer :=
  fold_left (fun c ev => step ev c) evs c.

(** A click on send (or Enter) followed by the completion of every read
    of that send, each with its result, nothing else happening in
    between. *)
Definition sendAndAwait (c : Composer) : Composer :=
  Nat.iter (length (selectedImages c))
    (step (ReaderLoadEnd (length (readers c))))
    (commit c (handleSend c)).

End Component.

(** A layout engine for the examples: lines of 24px in a box with 16px of
    vertical padding, one line per line feed, never less than the box. *)
Fixpoint lineBoxes (v : string) : N :=
  match v with
  | EmptyString => 1
  | String c r =>
      if Ascii.eqb c (ascii_of_nat 10) then 1 + lineBoxes r else lineBoxes r
  end.

Definition sampleScrollHeight (v : string) (h : N) : N :=
  N.max h (16 + 24 * lineBoxes v).

(** The controls that sending leaves alone. *)
Definition sameControls (c c' : Composer) : Prop :=
  isExpanded c' = isExpanded c
  ∧ isListening c' = isListening c
  ∧ showModelDropdown c' = showModelDropdown c
  ∧ selectedModel c' = selectedModel c.

(** Every attachment has its preview. *)
Definition previewsMatch (c : Composer) : Prop :=
  length (selectedImages c) = length (imagePreviews c).

(** The effects write [styleHeight], [lineCount] and [recognitionRef]
    only. *)
Definition sameButLayout (c c' : Composer) : Prop :=
  value c' = value c ∧ isLoading c' = isLoading c
  ∧ selectedModel c' = selectedModel c ∧ isListening c' = isListening c
  ∧ showModelDropdown c' = showModelDropdown c
  ∧ selectedImages c' = selectedImages c
  ∧ imagePreviews c' = imagePreviews c ∧ isExpanded c' = isExpanded c
  ∧ objectURLs c' = objectURLs c ∧ nextURL c' = nextURL c
  ∧ session c' = session c ∧ readers c' = readers c ∧ sent c' = sent c.

(** ** Sample inputs *)

(** A browser with the layout engine above and speech recognition. *)
Definition samplePlatform : Platform :=
  {| scrollHeight := sampleScrollHeight; hasSpeechRecognition := true |}.

Definition pngFile : File := mkFile "image/png" "data:image/png;base64,iVBORw0KGgo=".
Definition jpegFile : File := mkFile "image/jpeg" "data:image/jpeg;base64,/9j/4AAQ".

(** The composer as first rendered with an empty draft, nothing loading. *)
Definition freshComposer : Composer :=
  @mount samplePlatform "" false "gemini-2.5-flash".

(** The same with the two sample images picked. *)
Definition twoImagesComposer : Composer :=
  @run samplePlatform [PickFiles (Some [pngFile; jpegFile])] freshComposer.

(** The same with one image picked. *)
Definition oneImageComposer : Composer :=
  @run samplePlatform [PickFiles (Some [pngFile])] freshComposer.

(** The same with "Hello" typed. *)
Definition helloComposer : Composer :=
  @run samplePlatform [Input "Hello"] freshComposer.

(** A draft of eight lines. *)
Definition eightLines : string :=
  Eval cbv in
    fold_right (fun _ s => "a" +:+ String (ascii_of_nat 10) s) "a"
      (seq 0 7).

(** ** Histories and what they keep *)

(** The URLs that [n] calls of [URL.createObjectURL] mint from serial
    [a] on. *)
Fixpoint urlsFrom (a : N) (n : nat) : list ObjectURL :=
  match n with
  | O => []
  | S n => a :: urlsFrom (a + 1) n
  end.

(** The previews are distinct live URLs, and every live URL has been
    issued. *)
Definition urlsInv (c : Composer) : Prop :=
  NoDup (imagePreviews c)
  ∧ (∀ u, u ∈ imagePreviews c → u ∈ objectURLs c)
  ∧ (∀ u, u ∈ objectURLs c → u < nextURL c).

(** The textarea has the height and the line count of its text. *)
Definition layoutInv {platform : Platform} (c : Composer) : Prop :=
  styleHeight c = textareaHeight (value c) (isExpanded c)
  ∧ lineCount c = (scrollHeight (value c) (styleHeight c) + 23) / 24.

(** [recognitionRef.current] is the recogniser of the current text, or
    [null] without the capability. *)
Definition recognizerInv {platform : Platform} (c : Composer) : Prop :=
  recognitionRef c
  = if hasSpeechRecognition then Some (mkRecognizer (value c)) else None.

(** A call of [onSendMessage] that carries something: text that is not
    blank when the parts are omitted, at least one part otherwise. *)
Definition carriesContent (call : SendCall) : Prop :=
  match call.2 with
  | None => Js.truthy (Js.trim call.1) = true
  | Some parts => parts ≠ []
  end.

Definition isLoadEnd (ev : Event) : bool :=
  match ev with
  | ReaderLoadEnd _ | ReaderFailed _ => true
  | _ => false
  end.

(** [s.includes(ch)] for a character. *)
Fixpoint containsChar (ch : ascii) (s : string) : bool :=
  match s with
  | EmptyString => false
  | String c r => Ascii.eqb c ch || containsChar ch r
  end.

(** A browser without speech recognition. *)
Definition silentPlatform : Platform :=
  {| scrollHeight := sampleScrollHeight; hasSpeechRecognition := false |}.


(** * Properties *)

(** ** Strings and lists *)

Lemma trimStart_all_ws s : Js.all_ws (Js.trimStart s) = Js.all_ws s.
Proof.
  induction s as [|ch r IH]; simpl; [reflexivity|].
  destruct (Js.is_ws ch) eqn:E; simpl; [exact IH | now rewrite E].
Qed.

Lemma trimEnd_empty s : Js.trimEnd s = "" ↔ Js.all_ws s = true.
Proof.
  induction s as [|ch r IH]; simpl; [tauto|].
  destruct (Js.trimEnd r) eqn:E.
  - destruct (Js.is_ws ch); simpl; [tauto|].
    split; intros H; discriminate H.
  - split; [intros H; discriminate H|].
    intros H. apply andb_true_iff in H as [_ H].
    apply IH in H. discriminate H.
Qed.

Lemma trim_empty s : Js.trim s = "" ↔ Js.all_ws s = true.
Proof. unfold Js.trim. rewrite trimEnd_empty, trimStart_all_ws. tauto. Qed.

Lemma truthy_false s : Js.truthy s = false ↔ s = "".
Proof. destruct s; simpl; split; intros H; congruence. Qed.

Lemma isBlank_all_ws v : isBlank v = Js.all_ws v.
Proof.
  unfold isBlank. destruct (Js.all_ws v) eqn:E.
  - apply trim_empty in E. rewrite E. simpl. apply orb_true_r.
  - destruct v as [|ch r]; [discriminate E|]. simpl.
    destruct (String.eqb_spec (Js.trim (String ch r)) "") as [H|H];
      [|reflexivity].
    apply trim_empty in H. congruence.
Qed.

Lemma filterIndex_out_of_range {A} (index from : Z) (l : list A) :
  (index < from ∨ from + Z.of_nat (length l) ≤ index)%Z →
  Js.filterIndex (fun i => negb (i =? index)%Z) from l = l.
Proof.
  revert from. induction l as [|x r IH]; intros from H; simpl; [reflexivity|].
  simpl in H.
  destruct (Z.eqb_spec from index) as [->|_]; [lia|]. simpl.
  f_equal. apply IH. lia.
Qed.

Lemma filterIndex_delete {A} (i : nat) (from : Z) (l : list A) :
  Js.filterIndex (fun j => negb (j =? from + Z.of_nat i)%Z) from l
  = delete i l.
Proof.
  revert i from. induction l as [|x r IH]; intros i from; simpl.
  - now destruct i.
  - destruct i as [|i].
    + replace (from + Z.of_nat 0)%Z with from by lia.
      rewrite Z.eqb_refl. simpl.
      apply filterIndex_out_of_range. lia.
    + destruct (Z.eqb_spec from (from + Z.of_nat (S i))) as [E|_]; [lia|].
      simpl. f_equal.
      replace (from + Z.of_nat (S i))%Z with (from + 1 + Z.of_nat i)%Z by lia.
      apply IH.
Qed.

Lemma index_of_nat {A} (l : list A) (i : nat) :
  Js.index l (Z.of_nat i) = l !! i.
Proof.
  unfold Js.index. destruct (Z.leb_spec 0 (Z.of_nat i)); [|lia].
  now rewrite Nat2Z.id.
Qed.

Lemma index_out_of_range {A} (l : list A) (index : Z) :
  (index < 0 ∨ Z.of_nat (length l) ≤ index)%Z → Js.index l index = None.
Proof.
  intros H. unfold Js.index. destruct (Z.leb_spec 0 index); [|reflexivity].
  apply lookup_ge_None. lia.
Qed.

Lemma delete_insert_same {A} (i : nat) (x : A) (l : list A) :
  delete i (<[i := x]> l) = delete i l.
Proof.
  revert i. induction l as [|y r IH]; intros [|i]; simpl; try reflexivity.
  f_equal. apply IH.
Qed.

Lemma delete_last {A} (l : list A) (x : A) : delete (length l) (l ++ [x]) = l.
Proof. induction l as [|y r IH]; simpl; [reflexivity | now f_equal]. Qed.

Lemma split_without_separator sep s :
  containsChar sep s = false → Js.split sep s = [s].
Proof.
  induction s as [|ch r IH]; simpl; [reflexivity|].
  intros H. apply orb_false_iff in H as [H1 H2].
  rewrite H1, (IH H2). reflexivity.
Qed.

Lemma split_at_first_separator sep a b :
  containsChar sep a = false →
  Js.split sep (a +:+ String sep b) = a :: Js.split sep b.
Proof.
  induction a as [|ch r IH]; simpl; intros H.
  - now rewrite Ascii.eqb_refl.
  - apply orb_false_iff in H as [H1 H2].
    rewrite H1, (IH H2). reflexivity.
Qed.


(** ** Effects *)

Section Properties.

Context {platform : Platform}.

Lemma commit_sameButLayout before after :
  sameButLayout after (commit before after).
Proof.
  unfold sameButLayout, commit, recognitionEffect.
  destruct (String.eqb (value before) (value after));
    destruct (Bool.eqb (isExpanded before) (isExpanded after));
    destruct hasSpeechRecognition; simpl; repeat split; reflexivity.
Qed.

Lemma commit_unchanged before after :
  value after = value before → isExpanded after = isExpanded before →
  commit before after = after.
Proof.
  intros Hv He. unfold commit.
  rewrite Hv, He, String.eqb_refl, Bool.eqb_reflx. reflexivity.
Qed.

Lemma commit_before b b' after :
  value b' = value b → isExpanded b' = isExpanded b →
  commit b' after = commit b after.
Proof. intros Hv He. unfold commit. now rewrite Hv, He. Qed.

(** ** Sending *)

Lemma readerLoadEnd_absent i c :
  readers c !! i = None → step (ReaderLoadEnd i) c = c.
Proof.
  intros H. unfold step. simpl. unfold readerLoadEnd. rewrite H.
  now apply commit_unchanged.
Qed.

(** Once every read of a suspended send has completed, its tail has run
    with the parts of all its files, in order. *)
Lemma await_reads fs : ∀ f parts v i c,
  readers c !! i = Some (mkSendTask v (f :: fs) parts) →
  Nat.iter (S (length fs)) (step (ReaderLoadEnd i)) c
  = commit c (finishSend v (parts ++ map encode (f :: fs))
                (set_readers c (delete i (readers c)))).
Proof.
  induction fs as [|g fs IH]; intros f parts v i c H.
  - simpl. unfold step at 1. simpl. unfold readerLoadEnd.
    now rewrite H.
  - rewrite Nat.iter_succ_r.
    assert (E : step (ReaderLoadEnd i) c
                = set_readers c
                    (<[i := mkSendTask v (g :: fs) (parts ++ [encode f])]>
                       (readers c))).
    { unfold step. simpl. unfold readerLoadEnd. rewrite H.
      now apply commit_unchanged. }
    rewrite E.
    rewrite (IH g (parts ++ [encode f]) v i).
    + simpl readers. rewrite delete_insert_same.
      rewrite <- app_assoc. simpl.
      rewrite (commit_before c (set_readers c _)) by reflexivity.
      reflexivity.
    + simpl. apply list_lookup_insert_eq. now apply lookup_lt_Some in H.
Qed.

Lemma sendAndAwait_gated c : sendGate c = true → sendAndAwait c = c.
Proof.
  intros G. unfold sendAndAwait, handleSend. rewrite G.
  rewrite commit_unchanged by reflexivity.
  induction (length (selectedImages c)) as [|n IH]; simpl; [reflexivity|].
  rewrite IH. apply readerLoadEnd_absent. now apply lookup_ge_None.
Qed.

Lemma sendAndAwait_passed c :
  sendGate c = false →
  sendAndAwait c
  = commit c (finishSend (value c) (map encode (selectedImages c)) c).
Proof.
  intros G. unfold sendAndAwait, handleSend. rewrite G.
  destruct (selectedImages c) as [|f fs] eqn:E; [reflexivity|].
  rewrite commit_unchanged by reflexivity.
  change (length (f :: fs)) with (S (length fs)).
  rewrite (await_reads fs f [] (value c)).
  - simpl readers. rewrite delete_last.
    rewrite (commit_before c (set_readers c _)) by reflexivity.
    reflexivity.
  - simpl. rewrite lookup_app_r by reflexivity.
    now rewrite Nat.sub_diag.
Qed.

Lemma sendGate_true c :
  (Js.trim (value c) = "" ∧ selectedImages c = []) ∨ isLoading c = true →
  sendGate c = true.
Proof.
  unfold sendGate. intros [[Ht Hi]|Hl].
  - rewrite Ht, Hi. reflexivity.
  - rewrite Hl. apply orb_true_r.
Qed.

(** C3. When the trimmed draft text is empty and no attachment is held, or
    when [isLoading] is set, [handleSend] returns at its guard and the whole
    state is the one before the call: [onSendMessage] is not called ([sent]
    is as before), no send is left suspended and the draft is untouched. The
    same holds when the call comes from the send button, from Enter, and
    for the send followed by its reads. *)
Theorem handleSend_gated c :
  (Js.trim (value c) = "" ∧ selectedImages c = []) ∨ isLoading c = true →
  handleSend c = c
  ∧ step ClickSend c = c
  ∧ (∀ caret, step (KeyDown (mkKeyboardEvent "Enter" false) caret) c = c)
  ∧ sendAndAwait c = c.
Proof.
  intros H. apply sendGate_true in H.
  assert (E : handleSend c = c) by (unfold handleSend; now rewrite H).
  repeat split.
  - exact E.
  - unfold step. simpl. rewrite E.
    destruct (showsSendButton c && negb (isLoading c));
      now apply commit_unchanged.
  - intros caret. unfold step. simpl. rewrite E. now apply commit_unchanged.
  - now apply sendAndAwait_gated.
Qed.

Lemma sent_commit b c : sent (commit b c) = sent c.
Proof. apply commit_sameButLayout. Qed.

Lemma readers_commit b c : readers (commit b c) = readers c.
Proof.
  now destruct (commit_sameButLayout b c)
    as (_ & _ & _ & _ & _ & _ & _ & _ & _ & _ & _ & H & _).
Qed.

Lemma session_commit b c : session (commit b c) = session c.
Proof.
  now destruct (commit_sameButLayout b c)
    as (_ & _ & _ & _ & _ & _ & _ & _ & _ & _ & H & _).
Qed.

Lemma value_commit b c : value (commit b c) = value c.
Proof. now destruct (commit_sameButLayout b c) as (H & _). Qed.

Lemma partOf_data_url (t header payload : string) :
  containsChar "," header = false → containsChar "," payload = false →
  partOf (mkFile t (header +:+ "," +:+ payload)) (header +:+ "," +:+ payload)
  = mkPart (mkInlineData (Some payload) t).
Proof.
  intros Hh Hp. unfold partOf. simpl file_type.
  change ("," +:+ payload) with (String "," payload).
  rewrite (split_at_first_separator _ header payload Hh).
  now rewrite (split_without_separator _ payload Hp).
Qed.

Lemma readerFailed_step i c :
  sent (step (ReaderFailed i) c) = sent c
  ∧ value (step (ReaderFailed i) c) = value c
  ∧ selectedImages (step (ReaderFailed i) c) = selectedImages c
  ∧ imagePreviews (step (ReaderFailed i) c) = imagePreviews c
  ∧ (∀ t, readers c !! i = Some t → task_files t ≠ [] →
     readers (step (ReaderFailed i) c) = delete i (readers c)).
Proof.
  unfold step.
  destruct (commit_sameButLayout c (handle (ReaderFailed i) c))
    as (Hv & _ & _ & _ & _ & Hi & Hp & _ & _ & _ & _ & Hr & Hs).
  rewrite Hv, Hi, Hp, Hr, Hs. cbn [handle]. unfold readerLoadEnd.
  destruct (readers c !! i) as [[v [|f rest] parts]|];
    repeat split; try (intros t0 E; inversion E; subst; simpl; congruence).
Qed.

(** C4, as the code has it. A send that passes the guard and whose reads
    all deliver a result calls [onSendMessage] exactly once ([sent] grows
    by one call), with the draft text as first argument and as second
    argument, in the order of the attachments, one part
    [{ inlineData: { data: result.split(',')[1], mimeType: file.type } }]
    per attachment, or [undefined] when there is none. "Hello" with no
    attachment gives [("Hello", undefined)]; an empty text with two
    attachments whose data URLs are a header, a comma and a base64 text
    gives the two base64 texts with the two MIME types. The end of a read
    without a result makes no call and leaves the draft as it is; its send
    is never resumed. *)
Theorem send_invokes_once c :
  sendGate c = false →
  sent (sendAndAwait c)
  = sent c ++ [(value c,
                match selectedImages c with
                | [] => None
                | fs =>
                    Some (map (fun f =>
                                 mkPart
                                   (mkInlineData
                                      (Js.split "," (file_dataURL f) !! 1%nat)
                                      (file_type f))) fs)
                end)]
  ∧ (value c = "Hello" → selectedImages c = [] →
     sent (sendAndAwait c) = sent c ++ [("Hello", None)])
  ∧ (∀ t1 h1 p1 t2 h2 p2,
     containsChar "," h1 = false → containsChar "," p1 = false →
     containsChar "," h2 = false → containsChar "," p2 = false →
     value c = "" →
     selectedImages c
     = [mkFile t1 (h1 +:+ "," +:+ p1); mkFile t2 (h2 +:+ "," +:+ p2)] →
     sent (sendAndAwait c)
     = sent c ++ [("", Some [mkPart (mkInlineData (Some p1) t1);
                             mkPart (mkInlineData (Some p2) t2)])])
  ∧ (∀ c1 i,
     sent (step (ReaderFailed i) c1) = sent c1
     ∧ value (step (ReaderFailed i) c1) = value c1
     ∧ selectedImages (step (ReaderFailed i) c1) = selectedImages c1
     ∧ (∀ t, readers c1 !! i = Some t → task_files t ≠ [] →
        readers (step (ReaderFailed i) c1) = delete i (readers c1))).
Proof.
  intros G.
  assert (E : sent (sendAndAwait c)
              = sent c ++ [(value c,
                            match selectedImages c with
                            | [] => None
                            | fs => Some (map (fun f => partOf f (file_dataURL f)) fs)
                            end)]).
  { rewrite (sendAndAwait_passed c G), sent_commit.
    destruct (selectedImages c); reflexivity. }
  split; [exact E|]. split; [|split].
  - intros Hv Hi. rewrite E, Hv, Hi. reflexivity.
  - intros t1 h1 p1 t2 h2 p2 H1 H2 H3 H4 Hv Hi. rewrite E, Hv, Hi.
    cbn [map file_dataURL].
    now rewrite (partOf_data_url t1 h1 p1 H1 H2),
      (partOf_data_url t2 h2 p2 H3 H4).
  - intros c1 i. destruct (readerFailed_step i c1) as (H1 & H2 & H3 & _ & H5).
    repeat split; assumption.
Qed.

(** After a send that passed the guard the draft is cleared, and the set of
    live object URLs is the one before the send. *)
Lemma sendAndAwait_clears c :
  sendGate c = false →
  value (sendAndAwait c) = ""
  ∧ selectedImages (sendAndAwait c) = []
  ∧ imagePreviews (sendAndAwait c) = []
  ∧ objectURLs (sendAndAwait c) = objectURLs c.
Proof.
  intros G. rewrite (sendAndAwait_passed c G).
  destruct (commit_sameButLayout c
              (finishSend (value c) (map encode (selectedImages c)) c))
    as (Hv & _ & _ & _ & _ & Hi & Hp & _ & Hu & _).
  rewrite Hv, Hi, Hp, Hu. repeat split; reflexivity.
Qed.

(** ** The frame of a send *)

Lemma sameControls_refl c : sameControls c c.
Proof. repeat split. Qed.

Lemma sameControls_commit b c c' :
  sameControls c c' → sameControls c (commit b c').
Proof.
  intros (H1 & H2 & H3 & H4).
  destruct (commit_sameButLayout b c')
    as (_ & _ & Hm & Hl & Hd & _ & _ & He & _).
  unfold sameControls. rewrite He, Hl, Hd, Hm. repeat split; assumption.
Qed.

Lemma sameControls_trans c1 c2 c3 :
  sameControls c1 c2 → sameControls c2 c3 → sameControls c1 c3.
Proof.
  unfold sameControls. intros (A1 & A2 & A3 & A4) (B1 & B2 & B3 & B4).
  repeat split; congruence.
Qed.

Lemma sameControls_handleSend c : sameControls c (handleSend c).
Proof.
  unfold handleSend. destruct (sendGate c); [apply sameControls_refl|].
  destruct (selectedImages c); repeat split.
Qed.

Lemma sameControls_readerLoadEnd i failed c :
  sameControls c (readerLoadEnd i failed c).
Proof.
  unfold readerLoadEnd, readerResult.
  destruct (readers c !! i) as [[v [|f [|g rest]] parts]|], failed;
    repeat split.
Qed.

Lemma sameControls_iter (f : Composer → Composer) n c :
  (∀ x, sameControls x (f x)) → sameControls c (Nat.iter n f c).
Proof.
  intros H. induction n as [|n IH]; simpl; [apply sameControls_refl|].
  eapply sameControls_trans; [exact IH | apply H].
Qed.

(** C10. A send writes the draft only: after [handleSend], after the end
    of a read of a suspended send, with a result or without, after a click
    on the send button and after a whole send with its reads, [isExpanded],
    [isListening], [showModelDropdown] and [selectedModel] are what they
    were, whether the guard stopped the send or not. *)
Theorem send_frame c :
  sameControls c (handleSend c)
  ∧ (∀ i failed, sameControls c (readerLoadEnd i failed c))
  ∧ sameControls c (step ClickSend c)
  ∧ (∀ i, sameControls c (step (ReaderLoadEnd i) c))
  ∧ (∀ i, sameControls c (step (ReaderFailed i) c))
  ∧ sameControls c (sendAndAwait c).
Proof.
  split; [apply sameControls_handleSend|].
  split; [intros i failed; apply sameControls_readerLoadEnd|].
  split.
  { unfold step. apply sameControls_commit. simpl.
    destruct (showsSendButton c && negb (isLoading c));
      [apply sameControls_handleSend | apply sameControls_refl]. }
  split.
  { intros i. unfold step. apply sameControls_commit. simpl.
    apply sameControls_readerLoadEnd. }
  split.
  { intros i. unfold step. apply sameControls_commit. simpl.
    apply sameControls_readerLoadEnd. }
  unfold sendAndAwait.
  eapply sameControls_trans.
  - apply sameControls_commit, sameControls_handleSend.
  - apply sameControls_iter. intros x. unfold step.
    apply sameControls_commit. simpl. apply sameControls_readerLoadEnd.
Qed.

(** ** The keyboard *)

(** C9. On a key-down of Enter without Shift the handler calls
    [preventDefault] and [handleSend]. With Shift held it does neither: the
    textarea inserts its line feed at the caret, no call of [onSendMessage]
    is made and no send is suspended. On any other key the handler does
    nothing. *)
Theorem handleKeyDown_spec e caret c :
  (key e = "Enter" → shiftKey e = false →
     handleKeyDown e c = (true, handleSend c)
     ∧ handle (KeyDown e caret) c = handleSend c)
  ∧ (key e = "Enter" → shiftKey e = true →
     handleKeyDown e c = (false, c)
     ∧ handle (KeyDown e caret) c
       = onChange (insertLineBreak caret (value c)) c
     ∧ sent (handle (KeyDown e caret) c) = sent c
     ∧ readers (handle (KeyDown e caret) c) = readers c)
  ∧ (key e ≠ "Enter" →
     handleKeyDown e c = (false, c) ∧ handle (KeyDown e caret) c = c).
Proof.
  destruct e as [k shift]. simpl. split; [|split].
  - intros -> ->. now unfold handleKeyDown.
  - intros -> ->. now unfold handleKeyDown, defaultAction.
  - intros Hk. unfold handleKeyDown, defaultAction. simpl.
    destruct (String.eqb_spec k "Enter"); [contradiction | now split].
Qed.

(** ** The model selector *)

Lemma selectedModelName_registry :
  Forall (fun m => selectedModelName (id m) = name m) GEMINI_MODELS.
Proof. repeat constructor. Qed.

Lemma find_none_iff {A} (p : A → bool) (l : list A) :
  find p l = None ↔ Forall (fun x => p x = false) l.
Proof.
  induction l as [|x r IH]; simpl.
  - split; [constructor | reflexivity].
  - destruct (p x) eqn:E.
    + split; [discriminate|]. intros H. inversion H; congruence.
    + rewrite IH. split; [now constructor | intros H; now inversion H].
Qed.

(** C7. The name shown for a selected id is the name of the registry entry
    with that id, and ["gemma-3-27b-it"] when no entry has it. A click on an
    entry of the open dropdown sets [selectedModel] to the entry's id and
    closes the dropdown, and the name shown is then the entry's. *)
Theorem selectedModelName_spec (selected : string) :
  (∀ m, m ∈ GEMINI_MODELS → id m = selected →
     selectedModelName selected = name m)
  ∧ ((∀ m, m ∈ GEMINI_MODELS → id m ≠ selected) →
     selectedModelName selected = "gemma-3-27b-it")
  ∧ (∀ i m c, GEMINI_MODELS !! i = Some m →
     showsSendButton c = false → showModelDropdown c = true →
     let c' := step (ClickModelEntry i) c in
     selectedModel c' = id m
     ∧ showModelDropdown c' = false
     ∧ selectedModelName (selectedModel c') = name m).
Proof.
  split; [|split].
  - intros m Hm <-.
    pose proof selectedModelName_registry as H.
    rewrite Forall_forall in H. now apply H.
  - intros H. unfold selectedModelName.
    replace (find (fun m => String.eqb (id m) selected) GEMINI_MODELS)
      with (@None Model); [reflexivity|].
    symmetry. apply find_none_iff. apply Forall_forall. intros m Hm.
    apply String.eqb_neq. now apply H.
  - intros i m c Hi Hs Hd c'. subst c'. unfold step.
    change (handle (ClickModelEntry i) c)
      with (if showsSendButton c || negb (showModelDropdown c) then c
            else match GEMINI_MODELS !! i with
                 | Some m => selectModel m c
                 | None => c
                 end).
    rewrite Hs, Hd, Hi. cbn [orb negb].
    destruct (commit_sameButLayout c (selectModel m c))
      as (_ & _ & Hm & _ & Hdd & _).
    rewrite Hm, Hdd. simpl.
    repeat split.
    pose proof selectedModelName_registry as H.
    rewrite Forall_forall in H. apply H.
    now apply list_elem_of_lookup_2 in Hi.
Qed.

(** ** Attachments *)

Lemma createObjectURLs_length fs : ∀ c,
  length (createObjectURLs fs c).1 = length fs.
Proof.
  induction fs as [|f r IH]; intros c; simpl; [reflexivity|].
  specialize (IH (createObjectURL f c).2).
  destruct (createObjectURLs r (createObjectURL f c).2) as [us c2] eqn:E.
  simpl in *. rewrite E. simpl. now rewrite IH.
Qed.

Lemma createObjectURLs_lists fs : ∀ c,
  selectedImages (createObjectURLs fs c).2 = selectedImages c
  ∧ imagePreviews (createObjectURLs fs c).2 = imagePreviews c.
Proof.
  induction fs as [|f r IH]; intros c; simpl; [now split|].
  specialize (IH (createObjectURL f c).2).
  destruct (createObjectURLs r (createObjectURL f c).2) as [us c2] eqn:E.
  simpl in *. rewrite E. exact IH.
Qed.

Lemma removeImage_out_of_range (index : Z) c :
  previewsMatch c →
  (index < 0 ∨ Z.of_nat (length (selectedImages c)) ≤ index)%Z →
  removeImage index c = c.
Proof.
  unfold previewsMatch. intros Hwf H. unfold removeImage. simpl.
  rewrite index_out_of_range by lia. simpl.
  rewrite !filterIndex_out_of_range by lia. now destruct c.
Qed.

Lemma removeImage_in_range (i : nat) (u : ObjectURL) c :
  imagePreviews c !! i = Some u →
  selectedImages (removeImage (Z.of_nat i) c) = delete i (selectedImages c)
  ∧ imagePreviews (removeImage (Z.of_nat i) c) = delete i (imagePreviews c)
  ∧ objectURLs (removeImage (Z.of_nat i) c) = objectURLs c ∖ {[u]}.
Proof.
  intros Hu. unfold removeImage. simpl.
  rewrite index_of_nat, Hu. simpl.
  rewrite <- (Z.add_0_l (Z.of_nat i)), !filterIndex_delete.
  repeat split.
Qed.

(** C8. In a composer whose attachments have their previews,
    [removeImage] with an index out of the bounds of the attachment list
    leaves the whole state as it was; with an index in range it removes the
    attachment and the preview at that index and revokes the preview's
    URL. *)
Theorem removeImage_spec (index : Z) c :
  previewsMatch c →
  ((index < 0 ∨ Z.of_nat (length (selectedImages c)) ≤ index)%Z →
     removeImage index c = c)
  ∧ (∀ i u, index = Z.of_nat i → imagePreviews c !! i = Some u →
     selectedImages (removeImage index c) = delete i (selectedImages c)
     ∧ imagePreviews (removeImage index c) = delete i (imagePreviews c)
     ∧ objectURLs (removeImage index c) = objectURLs c ∖ {[u]}
     ∧ u ∉ objectURLs (removeImage index c)).
Proof.
  intros Hwf. split.
  - now apply removeImage_out_of_range.
  - intros i u -> Hu.
    destruct (removeImage_in_range i u c Hu) as (Hi & Hp & Ho).
    repeat split; try assumption.
    rewrite Ho. intros Hin. apply elem_of_difference in Hin as [_ Hin].
    apply Hin. now apply elem_of_singleton.
Qed.

Lemma previewsMatch_commit b c : previewsMatch c → previewsMatch (commit b c).
Proof.
  unfold previewsMatch.
  destruct (commit_sameButLayout b c) as (_ & _ & _ & _ & _ & Hi & Hp & _).
  now rewrite Hi, Hp.
Qed.

Lemma previewsMatch_finishSend v parts c : previewsMatch (finishSend v parts c).
Proof. reflexivity. Qed.

Lemma previewsMatch_handleSend c : previewsMatch c → previewsMatch (handleSend c).
Proof.
  unfold previewsMatch, handleSend. intros H.
  destruct (sendGate c); [exact H|].
  destruct (selectedImages c) eqn:E; simpl; [reflexivity|].
  now rewrite E.
Qed.

Lemma previewsMatch_handle ev c : previewsMatch c → previewsMatch (handle ev c).
Proof.
  unfold previewsMatch. intros H. destruct ev; simpl; try exact H.
  - destruct (handleKeyDown e c) as [prevented c1] eqn:E.
    unfold handleKeyDown in E.
    destruct (String.eqb (key e) "Enter" && negb (shiftKey e)).
    + injection E as <- <-. now apply previewsMatch_handleSend.
    + injection E as <- <-. unfold defaultAction.
      now destruct (String.eqb (key e) "Enter").
  - destruct files as [fs|]; [|exact H]. unfold handleImageSelect.
    pose proof (createObjectURLs_length fs
                  (setSelectedImages c (selectedImages c ++ fs))) as Hl.
    pose proof (createObjectURLs_lists fs
                  (setSelectedImages c (selectedImages c ++ fs))) as [Hi Hp].
    destruct (createObjectURLs fs _) as [us c2]. simpl in *.
    rewrite Hi, Hp, !length_app. lia.
  - destruct (i <? length (imagePreviews c))%nat eqn:E; [|exact H].
    apply Nat.ltb_lt in E.
    destruct (lookup_lt_is_Some_2 (imagePreviews c) i E) as [u Hu].
    destruct (removeImage_in_range i u c Hu) as (-> & -> & _).
    rewrite !length_delete; [lia | now exists u |].
    apply lookup_lt_is_Some_2. lia.
  - destruct (showsSendButton c && negb (isLoading c)); [|exact H].
    now apply previewsMatch_handleSend.
  - unfold readerLoadEnd.
    now destruct (readers c !! i) as [[v [|f [|g rest]] parts]|].
  - now destruct (showsSendButton c); [|unfold toggleListening, startRecognition;
      destruct (isListening c), (recognitionRef c), (session c)].
  - now destruct (session c).
  - now destruct (session c).
  - now destruct (session c).
  - now destruct (session c).
  - now destruct (showsSendButton c).
  - destruct (showsSendButton c || negb (showModelDropdown c)); [exact H|].
    now destruct (GEMINI_MODELS !! i).
  - unfold handleClickOutside. now destruct (showsSendButton c).
  - now destruct (showFullscreenButton c || isExpanded c).
  - unfold readerLoadEnd.
    now destruct (readers c !! i) as [[v [|f [|g rest]] parts]|].
Qed.

(** Every attachment has its preview in every state the composer reaches. *)
Lemma previewsMatch_run evs : ∀ c, previewsMatch c → previewsMatch (run evs c).
Proof.
  induction evs as [|ev evs IH]; intros c H; simpl; [exact H|].
  apply IH. unfold step. now apply previewsMatch_commit, previewsMatch_handle.
Qed.

Lemma previewsMatch_mount v loading model : previewsMatch (mount v loading model).
Proof.
  unfold mount, recognitionEffect. now destruct hasSpeechRecognition.
Qed.

(** ** The height of the textarea *)

(** C5, as the code has it. Expanded, the height is 480px whatever the
    text. Otherwise it is 40px for a text that is empty or all white space,
    and for any other text the smaller of the measured content height and
    180px: never above 180px (and equal to it once the content reaches it),
    not below 40px when the measured height is not, and non-decreasing in
    the measured content height. *)
Theorem textareaHeight_spec (v : string) :
  textareaHeight v true = 480
  ∧ isBlank v = Js.all_ws v
  ∧ (isBlank v = true → textareaHeight v false = 40)
  ∧ (isBlank v = false →
     textareaHeight v false = N.min (scrollHeight v 40) 180
     ∧ textareaHeight v false ≤ 180
     ∧ (180 ≤ scrollHeight v 40 → textareaHeight v false = 180)
     ∧ (40 ≤ scrollHeight v 40 → 40 ≤ textareaHeight v false))
  ∧ (∀ v', isBlank v = false → isBlank v' = false →
     scrollHeight v 40 ≤ scrollHeight v' 40 →
     textareaHeight v false ≤ textareaHeight v' false).
Proof.
  split; [reflexivity|].
  split; [apply isBlank_all_ws|].
  unfold textareaHeight. split; [now intros ->|].
  split.
  - intros ->. repeat split; lia.
  - intros v' -> -> H. lia.
Qed.

(** ** Dictation *)

(** The handler of a recogniser appends to the text it closed over. *)
Lemma onresult_value r t c :
  value (onresult r t c)
  = closure_value r
    +:+ (if Js.truthy (closure_value r) then " " else "") +:+ t.
Proof. reflexivity. Qed.

(** For a recogniser built by the latest run of the effect, that text is
    the draft. *)
Lemma onresult_current r t c :
  closure_value r = value c →
  value (onresult r t c)
  = if Js.truthy (value c) then value c +:+ " " +:+ t else t.
Proof.
  intros E. rewrite onresult_value, E. now destruct (value c).
Qed.

(** The recogniser that a session runs on was built when the session was
    started: a later change of the draft builds another one and leaves the
    session's alone. *)
Lemma session_keeps_closure v c :
  session (step (Input v) c) = session c.
Proof. unfold step. now rewrite session_commit. Qed.

(** Two sends started before the reads of the first have completed both
    reach [onSendMessage]: [isLoading] is raised by the caller in the first
    call of [onSendMessage] only, after both have passed the guard. *)
Lemma double_send c f fs :
  sendGate c = false → selectedImages c = f :: fs → readers c = [] →
  let n := S (length fs) in
  let call := (value c, Some (map encode (f :: fs))) in
  sent (Nat.iter n (step (ReaderLoadEnd 0))
          (Nat.iter n (step (ReaderLoadEnd 0))
             (step ClickSend (step ClickSend c))))
  = sent c ++ [call; call].
Proof.
  intros G Hi Hr n call.
  assert (Hl : isLoading c = false).
  { unfold sendGate in G. apply orb_false_iff in G. tauto. }
  assert (Hs : showsSendButton c = true).
  { unfold showsSendButton. rewrite Hi. apply orb_true_r. }
  pose (t := mkSendTask (value c) (f :: fs) []).
  assert (E1 : step ClickSend c = set_readers c [t]).
  { unfold step. simpl. rewrite Hs, Hl. simpl. unfold handleSend.
    rewrite G, Hi, Hr. now apply commit_unchanged. }
  assert (E2 : step ClickSend (set_readers c [t]) = set_readers c [t; t]).
  { unfold step. simpl.
    change (showsSendButton (set_readers c [t])) with (showsSendButton c).
    rewrite Hs, Hl. simpl. unfold handleSend.
    change (sendGate (set_readers c [t])) with (sendGate c).
    rewrite G. simpl. rewrite Hi. now apply commit_unchanged. }
  rewrite E1, E2. subst n.
  rewrite (await_reads fs f [] (value c) 0%nat (set_readers c [t; t]))
    by reflexivity.
  set (c2 := commit _ _).
  assert (R2 : readers c2 = [t]) by (subst c2; now rewrite readers_commit).
  assert (S2 : sent c2 = sent c ++ [call])
    by (subst c2; rewrite sent_commit; reflexivity).
  rewrite (await_reads fs f [] (value c) 0%nat c2) by now rewrite R2.
  rewrite sent_commit. simpl. rewrite S2, <- app_assoc. reflexivity.
Qed.

End Properties.

(** * The properties at sample inputs *)

(** C1. One image is attached and nothing is loading. Two clicks on the
    send button before the read of the first send has completed both pass
    the guard, and once the two reads complete [onSendMessage] has been
    called twice with the same message. *)
Theorem double_click_sends_twice :
  sendGate oneImageComposer = false
  ∧ sent oneImageComposer = []
  ∧ sent (@run samplePlatform
            [ClickSend; ClickSend; ReaderLoadEnd 0; ReaderLoadEnd 0]
            oneImageComposer)
    = [("", Some [encode pngFile]); ("", Some [encode pngFile])].
Proof. repeat split; vm_compute; reflexivity. Qed.

(** C2. One image is attached, with object URL 0 as its preview. After the
    send and its read the draft is cleared, text, attachments and previews,
    and URL 0 is still live: [handleSend] drops the previews without
    revoking them. *)
Theorem send_leaves_preview_url_live :
  imagePreviews oneImageComposer = [0]
  ∧ 0 ∈ objectURLs oneImageComposer
  ∧ value (@sendAndAwait samplePlatform oneImageComposer) = ""
  ∧ selectedImages (@sendAndAwait samplePlatform oneImageComposer) = []
  ∧ imagePreviews (@sendAndAwait samplePlatform oneImageComposer) = []
  ∧ 0 ∈ objectURLs (@sendAndAwait samplePlatform oneImageComposer).
Proof.
  assert (G : sendGate oneImageComposer = false) by reflexivity.
  destruct (@sendAndAwait_clears samplePlatform oneImageComposer G)
    as (Hv & Hi & Hp & Hu).
  assert (H0 : 0 ∈ objectURLs oneImageComposer).
  { change (objectURLs oneImageComposer) with ({[0]} ∪ (∅ : gset N)).
    apply elem_of_union_l. now apply elem_of_singleton. }
  rewrite Hu. repeat split; assumption.
Qed.

(** C5 as stated fails at the cap: a draft of eight lines is not blank, its
    content is higher than 180px, and its height is 180px, not strictly
    below it. *)
Lemma textareaHeight_reaches_cap :
  isBlank eightLines = false
  ∧ ¬ (40 < @textareaHeight samplePlatform eightLines false
       ∧ @textareaHeight samplePlatform eightLines false < 180).
Proof.
  split; [reflexivity|].
  change (@textareaHeight samplePlatform eightLines false) with 180.
  lia.
Qed.

(** C6. Dictation is started on an empty draft, the user types "ab" while
    it listens, and the final transcript "hi" arrives while the draft is
    "ab". The draft becomes "hi", not "ab hi": the handler that receives
    the transcript belongs to the recogniser that was started, which closed
    over the empty draft. *)
Theorem transcript_replaces_typed_text :
  value (@run samplePlatform
           [ClickMic; RecognitionStart; Input "ab"] freshComposer) = "ab"
  ∧ value (@run samplePlatform
             [ClickMic; RecognitionStart; Input "ab"; RecognitionResult "hi"]
             freshComposer) = "hi".
Proof. split; vm_compute; reflexivity. Qed.

(** ** Instances *)

(** C3 at the freshly rendered composer: the draft is empty. *)
Lemma handleSend_gated_witness :
  ((Js.trim (value freshComposer) = "" ∧ selectedImages freshComposer = [])
   ∨ isLoading freshComposer = true)
  ∧ handleSend freshComposer = freshComposer
  ∧ @step samplePlatform ClickSend freshComposer = freshComposer.
Proof.
  assert (H : (Js.trim (value freshComposer) = ""
               ∧ selectedImages freshComposer = [])
              ∨ isLoading freshComposer = true).
  { left. split; reflexivity. }
  split; [exact H|].
  destruct (@handleSend_gated samplePlatform freshComposer H)
    as (E1 & E2 & _).
  split; [exact E1 | exact E2].
Defined.

(** C4 as stated fails when a read delivers no result: the send of one
    image passes the guard, its reader ends with [null], and no call is
    made; nothing is left that could make one. *)
Lemma failed_read_makes_no_call :
  sendGate oneImageComposer = false
  ∧ sent (@run samplePlatform [ClickSend; ReaderFailed 0] oneImageComposer)
    = []
  ∧ readers (@run samplePlatform [ClickSend; ReaderFailed 0] oneImageComposer)
    = [].
Proof. repeat split; vm_compute; reflexivity. Qed.

(** C4 at the two scenarios: "Hello" alone, and the two sample images with
    no text, whose payloads are the base64 texts of their data URLs. *)
Lemma send_invokes_once_witness :
  sendGate helloComposer = false
  ∧ sent (@sendAndAwait samplePlatform helloComposer) = [("Hello", None)]
  ∧ sendGate twoImagesComposer = false
  ∧ sent (@sendAndAwait samplePlatform twoImagesComposer)
    = [("", Some [mkPart (mkInlineData (Some "iVBORw0KGgo=") "image/png");
                  mkPart (mkInlineData (Some "/9j/4AAQ") "image/jpeg")])].
Proof.
  split; [reflexivity|]. split.
  - exact (proj1 (proj2 (@send_invokes_once samplePlatform helloComposer
                           eq_refl)) eq_refl eq_refl).
  - split; [reflexivity|].
    exact (proj1 (proj2 (proj2 (@send_invokes_once samplePlatform
                                  twoImagesComposer eq_refl)))
             "image/png" "data:image/png;base64" "iVBORw0KGgo="
             "image/jpeg" "data:image/jpeg;base64" "/9j/4AAQ"
             eq_refl eq_refl eq_refl eq_refl eq_refl eq_refl).
Defined.

(** C5 at a blank draft, at "Hello" and at the draft of eight lines. *)
Lemma textareaHeight_spec_witness :
  isBlank "   " = true
  ∧ @textareaHeight samplePlatform "   " false = 40
  ∧ isBlank "Hello" = false
  ∧ 40 ≤ @textareaHeight samplePlatform "Hello" false
  ∧ @textareaHeight samplePlatform "Hello" false ≤ 180
  ∧ @textareaHeight samplePlatform "Hello" false
    ≤ @textareaHeight samplePlatform eightLines false.
Proof.
  destruct (@textareaHeight_spec samplePlatform "   ") as (_ & _ & B & _).
  destruct (@textareaHeight_spec samplePlatform "Hello")
    as (_ & _ & _ & NB & M).
  destruct (NB eq_refl) as (_ & Hle & _ & Hge).
  split; [reflexivity|].
  split; [exact (B eq_refl)|].
  split; [reflexivity|].
  split; [apply Hge; now vm_compute|].
  split; [exact Hle|].
  apply (M eightLines); [reflexivity | reflexivity | now vm_compute].
Defined.

(** C7 at the scenario of the spec: "gemini-2.0-flash-exp" chosen from the
    open dropdown; and at an id the registry does not hold. *)
Lemma selectedModelName_spec_witness :
  selectedModelName "gemini-2.0-flash-exp" = "Gemini 2.0 Flash Exp"
  ∧ selectedModelName "gemini-pro" = "gemma-3-27b-it"
  ∧ selectedModel
      (@run samplePlatform [ClickModelButton; ClickModelEntry 1] freshComposer)
    = "gemini-2.0-flash-exp"
  ∧ showModelDropdown
      (@run samplePlatform [ClickModelButton; ClickModelEntry 1] freshComposer)
    = false
  ∧ selectedModelName
      (selectedModel
         (@run samplePlatform [ClickModelButton; ClickModelEntry 1]
            freshComposer))
    = "Gemini 2.0 Flash Exp".
Proof.
  pose (m := mkModel "gemini-2.0-flash-exp" "Gemini 2.0 Flash Exp").
  destruct (@selectedModelName_spec samplePlatform "gemini-2.0-flash-exp")
    as (Hin & _ & Hclick).
  destruct (@selectedModelName_spec samplePlatform "gemini-pro")
    as (_ & Hout & _).
  split.
  { apply (Hin m); [|reflexivity]. do 2 constructor. }
  split.
  { apply Hout. intros x Hx.
    repeat (apply elem_of_cons in Hx as [-> | Hx]; [discriminate|]).
    inversion Hx. }
  exact (Hclick 1%nat m
           (@run samplePlatform [ClickModelButton] freshComposer)
           eq_refl eq_refl eq_refl).
Defined.

(** C8 at the composer holding the two sample images: indices 2 and -1 are
    out of range, index 0 is the first image. *)
Lemma removeImage_spec_witness :
  previewsMatch twoImagesComposer
  ∧ removeImage 2 twoImagesComposer = twoImagesComposer
  ∧ removeImage (-1) twoImagesComposer = twoImagesComposer
  ∧ selectedImages (removeImage 0 twoImagesComposer) = [jpegFile]
  ∧ imagePreviews (removeImage 0 twoImagesComposer) = [1]
  ∧ 0 ∉ objectURLs (removeImage 0 twoImagesComposer).
Proof.
  assert (W : previewsMatch twoImagesComposer) by reflexivity.
  split; [exact W|].
  split.
  { apply (removeImage_spec 2 twoImagesComposer W). right. now vm_compute. }
  split.
  { apply (removeImage_spec (-1) twoImagesComposer W). left. lia. }
  destruct (proj2 (removeImage_spec 0 twoImagesComposer W) 0%nat 0 eq_refl
              eq_refl) as (Hi & Hp & _ & Hu).
  split; [exact Hi|]. split; [exact Hp | exact Hu].
Defined.

(** C9 at Enter, Shift+Enter with the caret after "He", and the key "a",
    all on the draft "Hello". *)
Lemma handleKeyDown_spec_witness :
  handleKeyDown (mkKeyboardEvent "Enter" false) helloComposer
  = (true, handleSend helloComposer)
  ∧ sent (handle (KeyDown (mkKeyboardEvent "Enter" false) 2) helloComposer)
    = [("Hello", None)]
  ∧ value (handle (KeyDown (mkKeyboardEvent "Enter" true) 2) helloComposer)
    = "He" +:+ String (ascii_of_nat 10) "llo"
  ∧ sent (handle (KeyDown (mkKeyboardEvent "Enter" true) 2) helloComposer)
    = []
  ∧ handle (KeyDown (mkKeyboardEvent "a" false) 2) helloComposer
    = helloComposer.
Proof.
  destruct (handleKeyDown_spec (mkKeyboardEvent "Enter" false) 2 helloComposer)
    as (Henter & _ & _).
  destruct (handleKeyDown_spec (mkKeyboardEvent "Enter" true) 2 helloComposer)
    as (_ & Hshift & _).
  destruct (handleKeyDown_spec (mkKeyboardEvent "a" false) 2 helloComposer)
    as (_ & _ & Hother).
  destruct (Henter eq_refl eq_refl) as (E1 & E2).
  destruct (Hshift eq_refl eq_refl) as (_ & S2 & S3 & _).
  assert (Ha : key (mkKeyboardEvent "a" false) ≠ "Enter") by discriminate.
  destruct (Hother Ha) as (_ & O2).
  split; [exact E1|].
  split; [rewrite E2; reflexivity|].
  split; [rewrite S2; reflexivity|].
  split; [exact S3 | exact O2].
Defined.

(** * Further properties of the composer *)

(** ** Object URLs *)

Lemma urlsFrom_length a n : length (urlsFrom a n) = n.
Proof. revert a. induction n as [|n IH]; intros a; simpl; [|rewrite IH]; reflexivity. Qed.

Lemma urlsFrom_range a n u : u ∈ urlsFrom a n → a ≤ u < a + N.of_nat n.
Proof.
  revert a. induction n as [|n IH]; intros a H; simpl in H.
  - inversion H.
  - apply elem_of_cons in H as [->|H]; [lia|].
    apply IH in H. lia.
Qed.

Lemma urlsFrom_NoDup a n : NoDup (urlsFrom a n).
Proof.
  revert a. induction n as [|n IH]; intros a; simpl; constructor.
  - intros H. apply urlsFrom_range in H. lia.
  - apply IH.
Qed.

(** What [files.map(file => URL.createObjectURL(file))] returns and leaves
    behind. *)
Lemma createObjectURLs_eq fs : ∀ c,
  createObjectURLs fs c
  = (urlsFrom (nextURL c) (length fs),
     set_nextURL
       (set_objectURLs c
          (list_to_set (urlsFrom (nextURL c) (length fs)) ∪ objectURLs c))
       (nextURL c + N.of_nat (length fs))).
Proof.
  induction fs as [|f r IH]; intros c.
  - destruct c. unfold set_nextURL, set_objectURLs. simpl.
    f_equal. f_equal; [now rewrite (left_id_L ∅ (∪)) | lia].
  - cbn [createObjectURLs length urlsFrom]. unfold createObjectURL.
    rewrite IH. unfold set_nextURL, set_objectURLs. simpl.
    f_equal. f_equal; [|lia].
    rewrite (assoc_L (∪)). f_equal. apply (comm_L (∪)).
Qed.

Lemma handleImageSelect_eq fs c :
  handleImageSelect (Some fs) c
  = setImagePreviews
      (set_nextURL
         (set_objectURLs (setSelectedImages c (selectedImages c ++ fs))
            (list_to_set (urlsFrom (nextURL c) (length fs)) ∪ objectURLs c))
         (nextURL c + N.of_nat (length fs)))
      (imagePreviews c ++ urlsFrom (nextURL c) (length fs)).
Proof. unfold handleImageSelect. rewrite createObjectURLs_eq. reflexivity. Qed.

Lemma NoDup_delete_lookup {A} (l : list A) (i : nat) (u : A) :
  NoDup l → l !! i = Some u → NoDup (delete i l) ∧ u ∉ delete i l.
Proof.
  intros Hnd Hu. rewrite delete_take_drop.
  rewrite <- (take_drop_middle l i u Hu) in Hnd.
  apply NoDup_app in Hnd as (H1 & H2 & H3).
  apply NoDup_cons in H3 as (H3 & H4).
  split.
  - apply NoDup_app. repeat split; [exact H1 | | exact H4].
    intros x Hx Hx'. apply (H2 x Hx). now right.
  - intros H. apply elem_of_app in H as [H|H]; [|contradiction].
    apply (H2 u H). now left.
Qed.

Lemma urlsInv_ext c c' :
  imagePreviews c' = imagePreviews c → objectURLs c' = objectURLs c →
  nextURL c' = nextURL c → urlsInv c → urlsInv c'.
Proof. unfold urlsInv. now intros -> -> ->. Qed.

Lemma urlsInv_cleared c c' :
  imagePreviews c' = [] → objectURLs c' = objectURLs c →
  nextURL c' = nextURL c → urlsInv c → urlsInv c'.
Proof.
  unfold urlsInv. intros -> -> -> (_ & _ & H).
  repeat split; [constructor | | exact H].
  intros u Hu. inversion Hu.
Qed.

Lemma urlsInv_handleSend c : urlsInv c → urlsInv (handleSend c).
Proof.
  intros H. unfold handleSend. destruct (sendGate c); [exact H|].
  destruct (selectedImages c).
  - now apply (urlsInv_cleared c).
  - now apply (urlsInv_ext c).
Qed.

Lemma urlsInv_readerLoadEnd i failed c :
  urlsInv c → urlsInv (readerLoadEnd i failed c).
Proof.
  intros H. unfold readerLoadEnd, readerResult.
  destruct (readers c !! i) as [[v [|f [|g rest]] parts]|], failed;
    first [exact H | now apply (urlsInv_ext c)
          | now apply (urlsInv_cleared c)].
Qed.

Lemma urlsInv_handleImageSelect files c :
  urlsInv c → urlsInv (handleImageSelect files c).
Proof.
  intros (Hnd & Hlive & Hfresh). destruct files as [fs|]; [|now repeat split].
  rewrite handleImageSelect_eq. unfold urlsInv. simpl. repeat split.
  - apply NoDup_app. repeat split; [exact Hnd | | apply urlsFrom_NoDup].
    intros u Hu Hu'. apply Hlive, Hfresh in Hu.
    apply urlsFrom_range in Hu'. lia.
  - intros u Hu. apply elem_of_union.
    apply elem_of_app in Hu as [Hu|Hu].
    + right. now apply Hlive.
    + left. now apply elem_of_list_to_set.
  - intros u Hu. apply elem_of_union in Hu as [Hu|Hu].
    + apply elem_of_list_to_set, urlsFrom_range in Hu. lia.
    + apply Hfresh in Hu. lia.
Qed.

Lemma urlsInv_removeImage (i : nat) c :
  (i < length (imagePreviews c))%nat →
  urlsInv c → urlsInv (removeImage (Z.of_nat i) c).
Proof.
  intros Hi (Hnd & Hlive & Hfresh).
  destruct (lookup_lt_is_Some_2 (imagePreviews c) i Hi) as [u Hu].
  destruct (removeImage_in_range i u c Hu) as (_ & Hp & Ho).
  destruct (NoDup_delete_lookup _ i u Hnd Hu) as (Hnd' & Hnotin).
  unfold urlsInv. rewrite Hp, Ho. repeat split.
  - exact Hnd'.
  - intros x Hx. apply elem_of_difference. split.
    + apply Hlive. now apply list_elem_of_delete_inv in Hx.
    + intros Hxu. apply elem_of_singleton in Hxu. now subst x.
  - intros x Hx. apply elem_of_difference in Hx as [Hx _].
    assert (N : nextURL (removeImage (Z.of_nat i) c) = nextURL c).
    { unfold removeImage. simpl. rewrite index_of_nat, Hu. reflexivity. }
    rewrite N. now apply Hfresh.
Qed.

Section Coverage.

Context {platform : Platform}.

(** A property that the first render has and every event keeps holds after
    every history. *)
Lemma run_invariant (P : Composer → Prop) :
  (∀ ev c, P c → P (step ev c)) → ∀ evs c, P c → P (run evs c).
Proof.
  intros Hstep. induction evs as [|ev evs IH]; intros c H; simpl;
    [exact H | apply IH, Hstep, H].
Qed.

Lemma run_snoc evs ev c : run (evs ++ [ev]) c = step ev (run evs c).
Proof. unfold run. now rewrite fold_left_app. Qed.

Lemma urlsInv_handle ev c : urlsInv c → urlsInv (handle ev c).
Proof.
  intros H. destruct ev; simpl; try exact H.
  - unfold handleKeyDown.
    destruct (String.eqb (key e) "Enter" && negb (shiftKey e)).
    + now apply urlsInv_handleSend.
    + unfold defaultAction. now destruct (String.eqb (key e) "Enter").
  - now apply urlsInv_handleImageSelect.
  - destruct (i <? length (imagePreviews c))%nat eqn:E; [|exact H].
    apply Nat.ltb_lt in E. now apply urlsInv_removeImage.
  - destruct (showsSendButton c && negb (isLoading c)); [|exact H].
    now apply urlsInv_handleSend.
  - now apply urlsInv_readerLoadEnd.
  - destruct (showsSendButton c); [exact H|].
    unfold toggleListening, startRecognition.
    now destruct (isListening c), (recognitionRef c), (session c).
  - now destruct (session c).
  - now destruct (session c).
  - now destruct (session c).
  - now destruct (session c).
  - now destruct (showsSendButton c).
  - destruct (showsSendButton c || negb (showModelDropdown c)); [exact H|].
    now destruct (GEMINI_MODELS !! i).
  - unfold handleClickOutside. now destruct (showsSendButton c).
  - now destruct (showFullscreenButton c || isExpanded c).
  - now apply urlsInv_readerLoadEnd.
Qed.

Lemma urlsInv_step ev c : urlsInv c → urlsInv (step ev c).
Proof.
  intros H. unfold step.
  destruct (commit_sameButLayout c (handle ev c))
    as (_ & _ & _ & _ & _ & _ & Hp & _ & Ho & Hn & _).
  apply (urlsInv_ext (handle ev c)); try assumption.
  now apply urlsInv_handle.
Qed.

Lemma urlsInv_mount v loading model : urlsInv (mount v loading model).
Proof.
  unfold mount, recognitionEffect, urlsInv.
  destruct hasSpeechRecognition; simpl;
    (repeat split; [constructor | intros u Hu; inversion Hu
                   | intros u Hu; now apply not_elem_of_empty in Hu]).
Qed.

Lemma urlsInv_run evs v loading model :
  urlsInv (run evs (mount v loading model)).
Proof.
  apply (run_invariant urlsInv); [apply @urlsInv_step | apply urlsInv_mount].
Qed.

(** Every attachment has its preview after every history: the two lists
    have the same length. *)
Theorem attachments_have_previews evs v loading model :
  length (selectedImages (run evs (mount v loading model)))
  = length (imagePreviews (run evs (mount v loading model))).
Proof. apply previewsMatch_run, previewsMatch_mount. Qed.

(** After every history the previews are pairwise distinct URLs that are
    still live, and no live URL is one that [createObjectURL] could issue
    again. *)
Theorem previews_are_live evs v loading model :
  let c := run evs (mount v loading model) in
  NoDup (imagePreviews c)
  ∧ (∀ u, u ∈ imagePreviews c → u ∈ objectURLs c)
  ∧ (∀ u, u ∈ objectURLs c → u < nextURL c).
Proof. apply urlsInv_run. Qed.

(** Picking files appends them in order behind the attachments held, with
    one new preview per file: the new previews are distinct URLs that were
    not live before and are live now, and no URL is revoked. A pick that
    yields no file list changes nothing. *)
Theorem pick_appends evs v loading model fs :
  let c := run evs (mount v loading model) in
  let c' := handleImageSelect (Some fs) c in
  selectedImages c' = selectedImages c ++ fs
  ∧ (∃ us, imagePreviews c' = imagePreviews c ++ us
           ∧ length us = length fs ∧ NoDup us
           ∧ (∀ u, u ∈ us → (u ∉ objectURLs c) ∧ u ∈ objectURLs c'))
  ∧ (∀ u, u ∈ objectURLs c → u ∈ objectURLs c')
  ∧ handleImageSelect None c = c.
Proof.
  intros c c'. subst c'.
  destruct (urlsInv_run evs v loading model) as (_ & _ & Hfresh).
  fold c in Hfresh. rewrite handleImageSelect_eq. simpl.
  split; [reflexivity|]. split; [|split; [|reflexivity]].
  - exists (urlsFrom (nextURL c) (length fs)).
    split; [reflexivity|]. split; [apply urlsFrom_length|].
    split; [apply urlsFrom_NoDup|].
    intros u Hu. split.
    + intros Hl. apply Hfresh in Hl. apply urlsFrom_range in Hu. lia.
    + apply elem_of_union. left. now apply elem_of_list_to_set.
  - intros u Hu. apply elem_of_union. now right.
Qed.

(** Picking one file and removing the last attachment again gives back
    the attachments, the previews and the set of live URLs. *)
Theorem pick_then_remove evs v loading model f :
  let c := run evs (mount v loading model) in
  let c' := removeImage (Z.of_nat (length (imagePreviews c)))
              (handleImageSelect (Some [f]) c) in
  selectedImages c' = selectedImages c
  ∧ imagePreviews c' = imagePreviews c
  ∧ objectURLs c' = objectURLs c.
Proof.
  intros c c'. subst c'.
  destruct (urlsInv_run evs v loading model) as (_ & _ & Hfresh).
  pose proof (previewsMatch_run evs _ (previewsMatch_mount v loading model))
    as Hlen.
  unfold previewsMatch in Hlen. fold c in Hfresh, Hlen.
  set (c1 := handleImageSelect (Some [f]) c).
  assert (Hu : imagePreviews c1 !! length (imagePreviews c)
               = Some (nextURL c)).
  { subst c1. rewrite handleImageSelect_eq. simpl.
    rewrite lookup_app_r by reflexivity. now rewrite Nat.sub_diag. }
  destruct (removeImage_in_range _ _ c1 Hu) as (Hi & Hp & Ho).
  rewrite Hi, Hp, Ho. subst c1. rewrite handleImageSelect_eq. simpl.
  rewrite <- Hlen at 1. rewrite !delete_last.
  repeat split.
  apply set_eq. intros u.
  rewrite elem_of_difference, elem_of_union, elem_of_union,
    elem_of_singleton, elem_of_empty.
  split.
  - intros [[[->|[]]|H] Hne]; [contradiction | exact H].
  - intros H. split; [now right|]. intros ->. apply Hfresh in H. lia.
Qed.

Lemma list_to_set_delete (l : list N) (i : nat) (u : N) :
  NoDup l → l !! i = Some u →
  list_to_set (C := gset N) (delete i l) = list_to_set l ∖ {[u]}.
Proof.
  intros Hnd Hu. destruct (NoDup_delete_lookup l i u Hnd Hu) as (_ & Hnotin).
  apply set_eq. intros x.
  rewrite elem_of_difference, !elem_of_list_to_set, elem_of_singleton.
  split.
  - intros Hx. split; [now apply list_elem_of_delete_inv in Hx|].
    now intros ->.
  - intros [Hx Hne]. rewrite delete_take_drop.
    rewrite <- (take_drop_middle l i u Hu) in Hx.
    apply elem_of_app. apply elem_of_app in Hx as [Hx|Hx]; [now left|].
    apply elem_of_cons in Hx as [->|Hx]; [contradiction | now right].
Qed.

Lemma sent_handleSend c : ∃ l, sent (handleSend c) = sent c ++ l.
Proof.
  unfold handleSend. destruct (sendGate c).
  - exists []. now rewrite app_nil_r.
  - destruct (selectedImages c).
    + now eexists.
    + exists []. now rewrite app_nil_r.
Qed.

Lemma sent_readerLoadEnd i failed c :
  ∃ l, sent (readerLoadEnd i failed c) = sent c ++ l.
Proof.
  unfold readerLoadEnd, readerResult.
  destruct (readers c !! i) as [[v [|f [|g rest]] parts]|], failed;
    try (exists []; now rewrite app_nil_r).
  now eexists.
Qed.

(** The calls of [onSendMessage] are only ever added to. *)
Lemma sent_handle ev c : ∃ l, sent (handle ev c) = sent c ++ l.
Proof.
  destruct ev; simpl; try (exists []; now rewrite app_nil_r).
  - unfold handleKeyDown.
    destruct (String.eqb (key e) "Enter" && negb (shiftKey e)).
    + apply sent_handleSend.
    + exists []. rewrite app_nil_r. unfold defaultAction.
      now destruct (String.eqb (key e) "Enter").
  - exists []. rewrite app_nil_r. destruct files as [fs|]; [|reflexivity].
    now rewrite handleImageSelect_eq.
  - exists []. rewrite app_nil_r.
    destruct (i <? length (imagePreviews c))%nat; [|reflexivity].
    unfold removeImage. simpl.
    now destruct (Js.index (imagePreviews c) (Z.of_nat i)).
  - destruct (showsSendButton c && negb (isLoading c));
      [apply sent_handleSend | exists []; now rewrite app_nil_r].
  - apply sent_readerLoadEnd.
  - exists []. rewrite app_nil_r. destruct (showsSendButton c); [reflexivity|].
    unfold toggleListening, startRecognition.
    now destruct (isListening c), (recognitionRef c), (session c).
  - exists []. rewrite app_nil_r. now destruct (session c).
  - exists []. rewrite app_nil_r. now destruct (session c).
  - exists []. rewrite app_nil_r. now destruct (session c).
  - exists []. rewrite app_nil_r. now destruct (session c).
  - exists []. rewrite app_nil_r. now destruct (showsSendButton c).
  - exists []. rewrite app_nil_r.
    destruct (showsSendButton c || negb (showModelDropdown c)); [reflexivity|].
    now destruct (GEMINI_MODELS !! i).
  - exists []. rewrite app_nil_r. unfold handleClickOutside.
    now destruct (showsSendButton c).
  - exists []. rewrite app_nil_r.
    now destruct (showFullscreenButton c || isExpanded c).
  - apply sent_readerLoadEnd.
Qed.

Lemma sent_step ev c : ∃ l, sent (step ev c) = sent c ++ l.
Proof. unfold step. rewrite sent_commit. apply sent_handle. Qed.

Lemma sent_nil_before ev c : sent (step ev c) = [] → sent c = [].
Proof.
  destruct (sent_step ev c) as [l ->]. intros H.
  now apply app_eq_nil in H.
Qed.

(** One handler keeps the live URLs equal to the previews as long as it
    does not call [onSendMessage]. *)
Lemma no_leak_handle ev c :
  urlsInv c →
  (sent c = [] → objectURLs c = list_to_set (imagePreviews c)) →
  sent (handle ev c) = [] →
  objectURLs (handle ev c) = list_to_set (imagePreviews (handle ev c)).
Proof.
  intros (Hnd & Hlive & Hfresh) Q Hs.
  assert (Hc : sent c = []).
  { destruct (sent_handle ev c) as [l E]. rewrite E in Hs.
    now apply app_eq_nil in Hs. }
  specialize (Q Hc).
  destruct ev; simpl in *; try exact Q.
  - unfold handleKeyDown in *.
    destruct (String.eqb (key e) "Enter" && negb (shiftKey e)).
    + unfold handleSend in *. destruct (sendGate c); [exact Q|].
      destruct (selectedImages c); [|exact Q].
      simpl in Hs. now apply app_eq_nil in Hs.
    + unfold defaultAction in *. now destruct (String.eqb (key e) "Enter").
  - destruct files as [fs|]; [|exact Q].
    rewrite handleImageSelect_eq. simpl.
    rewrite list_to_set_app_L, Q. apply (comm_L (∪)).
  - destruct (i <? length (imagePreviews c))%nat eqn:E; [|exact Q].
    apply Nat.ltb_lt in E.
    destruct (lookup_lt_is_Some_2 (imagePreviews c) i E) as [u Hu].
    destruct (removeImage_in_range i u c Hu) as (_ & -> & ->).
    rewrite Q. symmetry. now apply list_to_set_delete.
  - destruct (showsSendButton c && negb (isLoading c)); [|exact Q].
    unfold handleSend in *. destruct (sendGate c); [exact Q|].
    destruct (selectedImages c); [|exact Q].
    simpl in Hs. now apply app_eq_nil in Hs.
  - unfold readerLoadEnd, readerResult in *.
    destruct (readers c !! i) as [[v0 [|f [|g rest]] parts]|];
      try exact Q.
    simpl in Hs. now apply app_eq_nil in Hs.
  - destruct (showsSendButton c); [exact Q|].
    unfold toggleListening, startRecognition.
    now destruct (isListening c), (recognitionRef c), (session c).
  - now destruct (session c).
  - now destruct (session c).
  - now destruct (session c).
  - now destruct (session c).
  - now destruct (showsSendButton c).
  - destruct (showsSendButton c || negb (showModelDropdown c)); [exact Q|].
    now destruct (GEMINI_MODELS !! i).
  - unfold handleClickOutside. now destruct (showsSendButton c).
  - now destruct (showFullscreenButton c || isExpanded c).
  - unfold readerLoadEnd, readerResult.
    now destruct (readers c !! i) as [[v0 [|f [|g rest]] parts]|].
Qed.

(** In a history in which [onSendMessage] has not been called, the live
    object URLs are exactly the previews shown: picking and removing images
    leaves no URL behind. *)
Theorem no_leak_before_first_send evs v loading model :
  let c := run evs (mount v loading model) in
  sent c = [] → objectURLs c = list_to_set (imagePreviews c).
Proof.
  apply (run_invariant
           (fun c => urlsInv c
                     ∧ (sent c = [] →
                        objectURLs c = list_to_set (imagePreviews c)))).
  - intros ev c (Hu & Q). split; [now apply urlsInv_step|].
    unfold step. intros Hs.
    destruct (commit_sameButLayout c (handle ev c))
      as (_ & _ & _ & _ & _ & _ & Hp & _ & Ho & _ & _ & _ & Hsent).
    rewrite Hp, Ho. rewrite Hsent in Hs. now apply no_leak_handle.
  - split; [apply urlsInv_mount|]. intros _.
    unfold mount, recognitionEffect. now destruct hasSpeechRecognition.
Qed.

(** ** The send button and the guard *)

Lemma sendGate_button c :
  sendGate c = negb (showsSendButton c && negb (isLoading c)).
Proof.
  unfold sendGate, showsSendButton.
  now destruct (Js.truthy (Js.trim (value c))), (selectedImages c),
    (isLoading c).
Qed.

Lemma handle_ClickSend c : handle ClickSend c = handleSend c.
Proof.
  simpl. destruct (showsSendButton c && negb (isLoading c)) eqn:B;
    [reflexivity|].
  unfold handleSend. now rewrite sendGate_button, B.
Qed.

(** The guard of [handleSend] is the negation of the condition under which
    the send button is rendered and enabled, so Enter without Shift does
    what a click on the button does, in every state. *)
Theorem enter_is_send_button c caret :
  sendGate c = negb (showsSendButton c && negb (isLoading c))
  ∧ handle ClickSend c = handleSend c
  ∧ step (KeyDown (mkKeyboardEvent "Enter" false) caret) c
    = step ClickSend c.
Proof.
  split; [apply sendGate_button|]. split; [apply handle_ClickSend|].
  unfold step. now rewrite handle_ClickSend.
Qed.

(** ** Suspended sends *)

Lemma readers_handleSend c : ∃ l, readers (handleSend c) = readers c ++ l.
Proof.
  unfold handleSend. destruct (sendGate c).
  - exists []. now rewrite app_nil_r.
  - destruct (selectedImages c).
    + exists []. now rewrite app_nil_r.
    + now eexists.
Qed.

(** No event but the completion of a read touches the sends that are
    suspended; a new send joins them at the end. *)
Lemma readers_handle ev c :
  isLoadEnd ev = false → ∃ l, readers (handle ev c) = readers c ++ l.
Proof.
  intros Hev.
  destruct ev; simpl; try discriminate Hev;
    try (exists []; now rewrite app_nil_r).
  - unfold handleKeyDown.
    destruct (String.eqb (key e) "Enter" && negb (shiftKey e)).
    + apply readers_handleSend.
    + exists []. rewrite app_nil_r. unfold defaultAction.
      now destruct (String.eqb (key e) "Enter").
  - exists []. rewrite app_nil_r. destruct files as [fs|]; [|reflexivity].
    now rewrite handleImageSelect_eq.
  - exists []. rewrite app_nil_r.
    destruct (i <? length (imagePreviews c))%nat; [|reflexivity].
    unfold removeImage. simpl.
    now destruct (Js.index (imagePreviews c) (Z.of_nat i)).
  - destruct (showsSendButton c && negb (isLoading c));
      [apply readers_handleSend | exists []; now rewrite app_nil_r].
  - exists []. rewrite app_nil_r. destruct (showsSendButton c); [reflexivity|].
    unfold toggleListening, startRecognition.
    now destruct (isListening c), (recognitionRef c), (session c).
  - exists []. rewrite app_nil_r. now destruct (session c).
  - exists []. rewrite app_nil_r. now destruct (session c).
  - exists []. rewrite app_nil_r. now destruct (session c).
  - exists []. rewrite app_nil_r. now destruct (session c).
  - exists []. rewrite app_nil_r. now destruct (showsSendButton c).
  - exists []. rewrite app_nil_r.
    destruct (showsSendButton c || negb (showModelDropdown c)); [reflexivity|].
    now destruct (GEMINI_MODELS !! i).
  - exists []. rewrite app_nil_r. unfold handleClickOutside.
    now destruct (showsSendButton c).
  - exists []. rewrite app_nil_r.
    now destruct (showFullscreenButton c || isExpanded c).
Qed.

Lemma readers_run_lookup evs : ∀ c i t,
  Forall (fun ev => isLoadEnd ev = false) evs →
  readers c !! i = Some t → readers (run evs c) !! i = Some t.
Proof.
  induction evs as [|ev evs IH]; intros c i t Hevs Ht; simpl; [exact Ht|].
  inversion Hevs as [|? ? Hev Hrest]; subst.
  apply IH; [exact Hrest|].
  unfold step. rewrite readers_commit.
  destruct (readers_handle ev c Hev) as [l ->].
  now apply lookup_app_l_Some.
Qed.

(** A send with attachments sends what the draft held when it was
    started. Whatever happens while its images are read (typing, picking
    or removing images, further clicks), as long as no other read completes,
    the call made when its reads complete carries the text and the files of
    the click; and the draft at that moment is wiped, text typed and images
    picked in between included. *)
Theorem send_uses_draft_of_click c f fs evs :
  sendGate c = false → selectedImages c = f :: fs →
  Forall (fun ev => isLoadEnd ev = false) evs →
  let c1 := run evs (step ClickSend c) in
  let c2 := Nat.iter (S (length fs))
              (step (ReaderLoadEnd (length (readers c)))) c1 in
  sent c2 = sent c1 ++ [(value c, Some (map encode (f :: fs)))]
  ∧ value c2 = "" ∧ selectedImages c2 = [] ∧ imagePreviews c2 = [].
Proof.
  intros G Hi Hevs c1 c2.
  pose (t := mkSendTask (value c) (f :: fs) []).
  assert (E1 : step ClickSend c = set_readers c (readers c ++ [t])).
  { unfold step. rewrite handle_ClickSend.
    unfold handleSend. rewrite G, Hi. now apply commit_unchanged. }
  assert (L1 : readers c1 !! length (readers c) = Some t).
  { subst c1. apply readers_run_lookup; [exact Hevs|].
    rewrite E1. simpl. rewrite lookup_app_r by reflexivity.
    now rewrite Nat.sub_diag. }
  subst c2. rewrite (await_reads fs f [] (value c) _ c1 L1).
  destruct (commit_sameButLayout c1
              (finishSend (value c) ([] ++ map encode (f :: fs))
                 (set_readers c1 (delete (length (readers c)) (readers c1)))))
    as (Hv & _ & _ & _ & _ & Hs & Hp & _ & _ & _ & _ & _ & Hsent).
  rewrite Hv, Hs, Hp, Hsent. repeat split.
Qed.

Lemma readersInv_handleSend c :
  Forall (fun t => task_files t ≠ []) (readers c) →
  Forall (fun t => task_files t ≠ []) (readers (handleSend c)).
Proof.
  intros H. unfold handleSend. destruct (sendGate c); [exact H|].
  destruct (selectedImages c); [exact H|].
  simpl. apply Forall_app. split; [exact H|].
  constructor; [|constructor]. discriminate.
Qed.

Lemma readersInv_readerLoadEnd i failed c :
  Forall (fun t => task_files t ≠ []) (readers c) →
  Forall (fun t => task_files t ≠ []) (readers (readerLoadEnd i failed c)).
Proof.
  intros H. unfold readerLoadEnd, readerResult.
  destruct (readers c !! i) as [[v0 [|f [|g rest]] parts]|], failed;
    simpl; try exact H; try (now apply Forall_delete).
  apply Forall_insert; [exact H | discriminate].
Qed.

Lemma readersInv_handle ev c :
  Forall (fun t => task_files t ≠ []) (readers c) →
  Forall (fun t => task_files t ≠ []) (readers (handle ev c)).
Proof.
  intros H. destruct (isLoadEnd ev) eqn:Hev.
  - destruct ev; try discriminate Hev; simpl;
      now apply readersInv_readerLoadEnd.
  - destruct ev; try discriminate Hev; simpl; try exact H.
    + unfold handleKeyDown.
      destruct (String.eqb (key e) "Enter" && negb (shiftKey e)).
      * now apply readersInv_handleSend.
      * unfold defaultAction. now destruct (String.eqb (key e) "Enter").
    + destruct files as [fs|]; [|exact H]. now rewrite handleImageSelect_eq.
    + destruct (i <? length (imagePreviews c))%nat; [|exact H].
      unfold removeImage. simpl.
      now destruct (Js.index (imagePreviews c) (Z.of_nat i)).
    + destruct (showsSendButton c && negb (isLoading c)); [|exact H].
      now apply readersInv_handleSend.
    + destruct (showsSendButton c); [exact H|].
      unfold toggleListening, startRecognition.
      now destruct (isListening c), (recognitionRef c), (session c).
    + now destruct (session c).
    + now destruct (session c).
    + now destruct (session c).
    + now destruct (session c).
    + now destruct (showsSendButton c).
    + destruct (showsSendButton c || negb (showModelDropdown c)); [exact H|].
      now destruct (GEMINI_MODELS !! i).
    + unfold handleClickOutside. now destruct (showsSendButton c).
    + now destruct (showFullscreenButton c || isExpanded c).
Qed.

Lemma readersInv_run evs v loading model :
  Forall (fun t => task_files t ≠ [])
    (readers (run evs (mount v loading model))).
Proof.
  apply (run_invariant
           (fun c => Forall (fun t => task_files t ≠ []) (readers c))).
  - intros ev c H. unfold step. rewrite readers_commit.
    now apply readersInv_handle.
  - unfold mount, recognitionEffect.
    destruct hasSpeechRecognition; constructor.
Qed.

(** After every history, each suspended send completes once the reads of
    the files it still has to encode have completed: it then calls
    [onSendMessage] once, with the text it was started with and the parts
    of all its files in order, and leaves the suspended sends. *)
Theorem suspended_send_completes evs v loading model i t :
  let c := run evs (mount v loading model) in
  readers c !! i = Some t →
  let c' := Nat.iter (length (task_files t)) (step (ReaderLoadEnd i)) c in
  sent c'
  = sent c ++ [(task_value t,
                Some (task_parts t ++ map encode (task_files t)))]
  ∧ readers c' = delete i (readers c).
Proof.
  intros c Ht c'.
  pose proof (readersInv_run evs v loading model) as Hinv. fold c in Hinv.
  rewrite Forall_forall in Hinv.
  assert (Hne : task_files t ≠ []).
  { apply Hinv. eapply list_elem_of_lookup_2, Ht. }
  destruct t as [tv [|f fs] parts]; [contradiction|].
  subst c'. simpl task_files. change (length (f :: fs)) with (S (length fs)).
  rewrite (await_reads fs f parts tv i c Ht).
  rewrite sent_commit, readers_commit. simpl.
  rewrite length_app. simpl.
  replace (0 <? length parts + S (length (map encode fs)))%nat with true.
  - now split.
  - symmetry. apply Nat.ltb_lt. lia.
Qed.

(** ** What is sent *)

(** Once a send has completed the draft is empty, so that a further
    [handleSend] does nothing, whether the caller reports loading or not. *)
Theorem completed_send_closes_guard c (loading : bool) :
  sendGate c = false →
  sendGate (set_isLoading (sendAndAwait c) loading) = true
  ∧ handleSend (set_isLoading (sendAndAwait c) loading)
    = set_isLoading (sendAndAwait c) loading.
Proof.
  intros G. destruct (sendAndAwait_clears c G) as (Hv & Hi & _).
  assert (E : sendGate (set_isLoading (sendAndAwait c) loading) = true).
  { unfold sendGate. simpl. now rewrite Hv, Hi. }
  split; [exact E|]. unfold handleSend. now rewrite E.
Qed.

Lemma carriesContent_handleSend c :
  Forall carriesContent (sent c) → Forall carriesContent (sent (handleSend c)).
Proof.
  intros H. unfold handleSend. destruct (sendGate c) eqn:G; [exact H|].
  destruct (selectedImages c) eqn:E; [|exact H].
  simpl. apply Forall_app. split; [exact H|].
  constructor; [|constructor]. unfold carriesContent. simpl.
  unfold sendGate in G. rewrite E in G. simpl in G.
  apply orb_false_iff in G as [G _]. rewrite andb_true_r in G.
  now apply negb_false_iff in G.
Qed.

Lemma carriesContent_readerLoadEnd i failed c :
  Forall carriesContent (sent c) →
  Forall carriesContent (sent (readerLoadEnd i failed c)).
Proof.
  intros H. unfold readerLoadEnd, readerResult.
  destruct (readers c !! i) as [[v0 [|f [|g rest]] parts]|], failed;
    try exact H.
  simpl. apply Forall_app. split; [exact H|].
  constructor; [|constructor]. unfold carriesContent. simpl.
  rewrite length_app. simpl.
  replace (0 <? length parts + 1)%nat with true
    by (symmetry; apply Nat.ltb_lt; lia).
  simpl. now destruct parts.
Qed.

Lemma carriesContent_step ev c :
  Forall carriesContent (sent c) → Forall carriesContent (sent (step ev c)).
Proof.
  intros H. unfold step. rewrite sent_commit.
  destruct (isLoadEnd ev) eqn:Hev.
  - destruct ev; try discriminate Hev; simpl;
      now apply carriesContent_readerLoadEnd.
  - destruct ev; try discriminate Hev; simpl; try exact H.
    + unfold handleKeyDown.
      destruct (String.eqb (key e) "Enter" && negb (shiftKey e)).
      * now apply carriesContent_handleSend.
      * unfold defaultAction. now destruct (String.eqb (key e) "Enter").
    + destruct files as [fs|]; [|exact H]. now rewrite handleImageSelect_eq.
    + destruct (i <? length (imagePreviews c))%nat; [|exact H].
      unfold removeImage. simpl.
      now destruct (Js.index (imagePreviews c) (Z.of_nat i)).
    + destruct (showsSendButton c && negb (isLoading c)); [|exact H].
      now apply carriesContent_handleSend.
    + destruct (showsSendButton c); [exact H|].
      unfold toggleListening, startRecognition.
      now destruct (isListening c), (recognitionRef c), (session c).
    + now destruct (session c).
    + now destruct (session c).
    + now destruct (session c).
    + now destruct (session c).
    + now destruct (showsSendButton c).
    + destruct (showsSendButton c || negb (showModelDropdown c)); [exact H|].
      now destruct (GEMINI_MODELS !! i).
    + unfold handleClickOutside. now destruct (showsSendButton c).
    + now destruct (showFullscreenButton c || isExpanded c).
Qed.

(** After every history, no call of [onSendMessage] was empty: a call
    whose parts are omitted carries text that is not blank, and parts that
    are passed are never an empty array. *)
Theorem never_sends_nothing evs v loading model :
  Forall carriesContent (sent (run evs (mount v loading model))).
Proof.
  apply (run_invariant (fun c => Forall carriesContent (sent c))).
  - apply @carriesContent_step.
  - unfold mount, recognitionEffect.
    destruct hasSpeechRecognition; constructor.
Qed.

(** ** Layout *)

Ltac handler_cases :=
  cbn [handle];
  try rewrite handleImageSelect_eq;
  unfold handleKeyDown, defaultAction, handleImageSelect, handleSend,
    readerLoadEnd, readerResult, removeImage, toggleListening,
    startRecognition,
    handleClickOutside, revokeObjectURL, selectModel;
  repeat case_match; simplify_eq; simpl.

(** No handler writes the height or the line count; the effect does. *)
Lemma layout_handle ev c :
  styleHeight (handle ev c) = styleHeight c
  ∧ lineCount (handle ev c) = lineCount c
  ∧ recognitionRef (handle ev c) = recognitionRef c.
Proof. destruct ev as [| |[fs|]| | | | | | | | | | | | | |]; handler_cases; done. Qed.

Lemma layoutInv_step ev c : layoutInv c → layoutInv (step ev c).
Proof.
  intros (Hh & Hl). destruct (layout_handle ev c) as (Eh & El & _).
  unfold step, commit, layoutInv.
  destruct (String.eqb_spec (value c) (value (handle ev c))) as [Ev|Ev];
    destruct (Bool.eqb (isExpanded c) (isExpanded (handle ev c))) eqn:Ee;
    cbn [andb].
  - apply eqb_prop in Ee. now rewrite Eh, El, <- Ev, <- Ee.
  - now split.
  - unfold recognitionEffect. now destruct hasSpeechRecognition.
  - unfold recognitionEffect. now destruct hasSpeechRecognition.
Qed.

Lemma layoutInv_mount v loading model : layoutInv (mount v loading model).
Proof.
  unfold mount, recognitionEffect, layoutInv.
  now destruct hasSpeechRecognition.
Qed.

Lemma lines_over_two (h : N) : (2 <? (h + 23) / 24) = (48 <? h).
Proof.
  pose proof (N.div_mod (h + 23) 24 ltac:(discriminate)) as D.
  pose proof (N.mod_lt (h + 23) 24 ltac:(discriminate)) as M.
  set (q := (h + 23) / 24) in *. set (r := (h + 23) mod 24) in *.
  clearbody q r.
  destruct (N.ltb_spec 2 q), (N.ltb_spec 48 h); try reflexivity; lia.
Qed.

(** After every history the textarea has the height that the effect
    derives from the current text and the expanded flag, the line count is
    the measured scroll height in lines of 24px rounded up (the least
    number of lines that hold it), and the
    fullscreen button is offered exactly when that scroll height is above
    48px. *)
Theorem layout_in_sync evs v loading model :
  let c := run evs (mount v loading model) in
  styleHeight c = textareaHeight (value c) (isExpanded c)
  ∧ scrollHeight (value c) (styleHeight c) ≤ 24 * lineCount c
  ∧ 24 * lineCount c < scrollHeight (value c) (styleHeight c) + 24
  ∧ showFullscreenButton c = (48 <? scrollHeight (value c) (styleHeight c)).
Proof.
  intros c.
  assert (H : layoutInv c).
  { apply (run_invariant layoutInv);
      [apply @layoutInv_step | apply layoutInv_mount]. }
  destruct H as (Hh & Hl). split; [exact Hh|].
  unfold showFullscreenButton. rewrite Hl.
  set (h := scrollHeight (value c) (styleHeight c)).
  split; [|split; [|apply lines_over_two]].
  - pose proof (N.div_mod (h + 23) 24 ltac:(discriminate)) as D.
    pose proof (N.mod_lt (h + 23) 24 ltac:(discriminate)) as M.
    set (q := (h + 23) / 24) in *. set (r := (h + 23) mod 24) in *.
    clearbody q r. lia.
  - pose proof (N.div_mod (h + 23) 24 ltac:(discriminate)) as D.
    pose proof (N.mod_lt (h + 23) 24 ltac:(discriminate)) as M.
    set (q := (h + 23) / 24) in *. set (r := (h + 23) mod 24) in *.
    clearbody q r. lia.
Qed.


(** ** Dictation *)

Lemma isListening_commit b c : isListening (commit b c) = isListening c.
Proof.
  now destruct (commit_sameButLayout b c) as (_ & _ & _ & H & _).
Qed.

Lemma recognizerInv_step ev c : recognizerInv c → recognizerInv (step ev c).
Proof.
  unfold recognizerInv. intros H.
  destruct (layout_handle ev c) as (_ & _ & Er).
  unfold step, commit.
  destruct (String.eqb_spec (value c) (value (handle ev c))) as [Ev|Ev];
    cbn [andb].
  - destruct (Bool.eqb (isExpanded c) (isExpanded (handle ev c)));
      simpl; now rewrite Er, H, Ev.
  - unfold recognitionEffect.
    destruct hasSpeechRecognition; simpl; [reflexivity|].
    now rewrite Er.
Qed.

Lemma recognizerInv_mount v loading model :
  recognizerInv (mount v loading model).
Proof.
  unfold recognizerInv, mount, recognitionEffect.
  now destruct hasSpeechRecognition.
Qed.

Lemma recognizerInv_run evs v loading model :
  recognizerInv (run evs (mount v loading model)).
Proof.
  apply (run_invariant recognizerInv);
    [apply @recognizerInv_step | apply recognizerInv_mount].
Qed.

(** Without the speech capability no recogniser is ever built, so that
    after every history there is no session, the composer is not
    listening, and a click on the microphone changes nothing. *)
Theorem microphone_inert_without_speech evs v loading model :
  hasSpeechRecognition = false →
  let c := run evs (mount v loading model) in
  recognitionRef c = None ∧ session c = None ∧ isListening c = false
  ∧ step ClickMic c = c.
Proof.
  intros Hno c.
  assert (H : recognitionRef c = None ∧ session c = None
              ∧ isListening c = false).
  { apply (run_invariant
             (fun c => recognitionRef c = None ∧ session c = None
                       ∧ isListening c = false)).
    - intros ev x (Hr & Hs & Hl).
      pose proof (recognizerInv_step ev x) as R. unfold recognizerInv in R.
      rewrite Hno in R. split; [now apply R|].
      unfold step. rewrite session_commit, isListening_commit.
      destruct ev as [| |[fs|]| | | | | | | | | | | | | |]; handler_cases;
        rewrite ?Hs, ?Hl; try done; congruence.
    - unfold mount, recognitionEffect. now rewrite Hno. }
  destruct H as (Hr & Hs & Hl). repeat split; try assumption.
  unfold step. cbn [handle].
  unfold toggleListening, startRecognition. rewrite Hl, Hr.
  destruct (showsSendButton c); now apply commit_unchanged.
Qed.

(** With the speech capability, dictation that is started from an idle
    composer whose microphone is shown and that runs undisturbed (start,
    final transcript, end) appends the transcript to the draft, behind a
    space when the draft is not empty, and leaves the composer idle. *)
Theorem undisturbed_dictation_appends evs v loading model transcript :
  hasSpeechRecognition = true →
  let c := run evs (mount v loading model) in
  showsSendButton c = false → session c = None → isListening c = false →
  let c' := run [ClickMic; RecognitionStart;
                 RecognitionResult transcript; RecognitionEnd] c in
  isListening (run [ClickMic; RecognitionStart] c) = true
  ∧ value c'
    = (if Js.truthy (value c) then value c +:+ " " +:+ transcript
       else transcript)
  ∧ isListening c' = false ∧ session c' = None.
Proof.
  intros Hyes c Hmic Hs Hl c'.
  pose proof (recognizerInv_run evs v loading model) as Hr.
  unfold recognizerInv in Hr. fold c in Hr. rewrite Hyes in Hr.
  set (r := mkRecognizer (value c)) in *.
  assert (E1 : step ClickMic c = set_session c (Some r)).
  { unfold step. cbn [handle]. rewrite Hmic.
    unfold toggleListening, startRecognition. rewrite Hl, Hr, Hs.
    now apply commit_unchanged. }
  assert (E2 : step RecognitionStart (set_session c (Some r))
               = setIsListening (set_session c (Some r)) true).
  { unfold step. cbn [handle]. simpl. now apply commit_unchanged. }
  subst c'. cbn [run fold_left]. rewrite E1, E2.
  split; [reflexivity|].
  set (c2 := setIsListening (set_session c (Some r)) true).
  assert (V3 : value (step (RecognitionResult transcript) c2)
               = value c
                 +:+ (if Js.truthy (value c) then " " else "")
                 +:+ transcript).
  { unfold step. rewrite value_commit. reflexivity. }
  assert (S3 : session (step (RecognitionResult transcript) c2) = Some r).
  { unfold step. rewrite session_commit. reflexivity. }
  set (c3 := step (RecognitionResult transcript) c2) in *.
  unfold step at 1 2 3. cbn [handle]. rewrite S3.
  rewrite value_commit, isListening_commit, session_commit. simpl.
  rewrite V3. split; [|split; reflexivity].
  now destruct (value c).
Qed.

(** ** The model selector *)

Lemma selectedModel_commit b c : selectedModel (commit b c) = selectedModel c.
Proof.
  now destruct (commit_sameButLayout b c) as (_ & _ & H & _).
Qed.

Lemma showModelDropdown_commit b c :
  showModelDropdown (commit b c) = showModelDropdown c.
Proof.
  now destruct (commit_sameButLayout b c) as (_ & _ & _ & _ & H & _).
Qed.

(** The component only ever selects models of the registry: after every
    history the selected model is the one the composer was first rendered
    with or the id of a registry entry. *)
Theorem selects_registry_models_only evs v loading model :
  let c := run evs (mount v loading model) in
  selectedModel c = model ∨ selectedModel c ∈ map id GEMINI_MODELS.
Proof.
  apply (run_invariant
           (fun c => selectedModel c = model
                     ∨ selectedModel c ∈ map id GEMINI_MODELS)).
  - intros ev c H. unfold step. rewrite selectedModel_commit.
    set (ids := map id GEMINI_MODELS) in *.
    destruct ev as [| |[fs|]| | | | | | | | | | | | | |];
      handler_cases; try exact H.
    right. subst ids. apply (list_elem_of_fmap_2 id).
    eapply list_elem_of_lookup_2. eassumption.
  - left. unfold mount, recognitionEffect.
    now destruct hasSpeechRecognition.
Qed.

(** While the draft is not empty the selector is not rendered, and no
    event changes the selected model or the dropdown flag: a dropdown left
    open stays open behind the send button, outside clicks included. *)
Theorem selector_frozen_while_drafting ev c :
  showsSendButton c = true →
  selectedModel (step ev c) = selectedModel c
  ∧ showModelDropdown (step ev c) = showModelDropdown c.
Proof.
  intros Hs. unfold step.
  rewrite selectedModel_commit, showModelDropdown_commit.
  destruct ev as [| |[fs|]| | | | | | | | | | | | | |];
    cbn [handle]; unfold handleClickOutside; rewrite ?Hs; cbn [orb];
    handler_cases; done.
Qed.

End Coverage.

(** ** The data URL and the model names *)

(** The payload sent for an image is the text between the first and the
    second comma of its data URL: the whole base64 text behind the header
    when neither holds a comma, nothing ([undefined]) when the URL holds no
    comma at all. *)
Theorem base64_of_data_url (ty header : string) :
  containsChar "," header = false →
  (∀ payload, containsChar "," payload = false →
     base64_of (mkFile ty (header +:+ "," +:+ payload)) = Some payload)
  ∧ (∀ payload rest, containsChar "," payload = false →
     base64_of (mkFile ty (header +:+ "," +:+ payload +:+ "," +:+ rest))
     = Some payload)
  ∧ base64_of (mkFile ty header) = None.
Proof.
  intros Hh. unfold base64_of. cbn [file_dataURL]. repeat split.
  - intros payload Hp.
    change ("," +:+ payload) with (String "," payload).
    rewrite (split_at_first_separator _ header payload Hh).
    now rewrite (split_without_separator _ payload Hp).
  - intros payload rest Hp.
    change ("," +:+ payload +:+ "," +:+ rest)
      with (String "," (payload +:+ String "," rest)).
    rewrite (split_at_first_separator _ header _ Hh).
    now rewrite (split_at_first_separator _ payload rest Hp).
  - now rewrite (split_without_separator _ header Hh).
Qed.

(** The fallback ["gemma-3-27b-it"] is shown exactly for the ids that the
    registry does not hold. *)
Theorem fallback_name_iff_unregistered (selected : string) :
  selectedModelName selected = "gemma-3-27b-it"
  ↔ selected ∉ map id GEMINI_MODELS.
Proof.
  split.
  - intros E H. change (map id GEMINI_MODELS) with (id <$> GEMINI_MODELS) in H.
    apply list_elem_of_fmap in H as (m & -> & Hm).
    pose proof selectedModelName_registry as R.
    rewrite Forall_forall in R. rewrite (R m Hm) in E.
    assert (D : Forall (fun m => name m ≠ "gemma-3-27b-it") GEMINI_MODELS)
      by (repeat constructor; discriminate).
    rewrite Forall_forall in D. now apply (D m Hm).
  - intros H. unfold selectedModelName.
    replace (find (fun m => String.eqb (id m) selected) GEMINI_MODELS)
      with (@None Model); [reflexivity|].
    symmetry. apply find_none_iff, Forall_forall. intros m Hm.
    apply String.eqb_neq. intros <-. apply H.
    now apply (list_elem_of_fmap_2 id).
Qed.

(** ** Instances of the further properties *)

(** Two images picked and the first one removed: no call was made, and the
    one live URL is the preview left. *)
Lemma no_leak_before_first_send_witness :
  sent (@run samplePlatform
          [PickFiles (Some [pngFile; jpegFile]); ClickRemove 0]
          freshComposer) = []
  ∧ objectURLs (@run samplePlatform
                  [PickFiles (Some [pngFile; jpegFile]); ClickRemove 0]
                  freshComposer)
    = list_to_set
        (imagePreviews
           (@run samplePlatform
              [PickFiles (Some [pngFile; jpegFile]); ClickRemove 0]
              freshComposer)).
Proof.
  split; [reflexivity|].
  exact (@no_leak_before_first_send samplePlatform
           [PickFiles (Some [pngFile; jpegFile]); ClickRemove 0]
           "" false "gemini-2.5-flash" eq_refl).
Defined.

(** One image attached; while it is read the user types and picks a
    second image. The call carries the empty text and the first image
    only, and the draft is wiped. The last conjunct is the same history
    evaluated. *)
Lemma send_uses_draft_of_click_witness :
  sendGate oneImageComposer = false
  ∧ selectedImages oneImageComposer = [pngFile]
  ∧ (let c1 := @run samplePlatform
                 [Input "more"; PickFiles (Some [jpegFile])]
                 (@step samplePlatform ClickSend oneImageComposer) in
     let c2 := Nat.iter 1
                 (@step samplePlatform
                    (ReaderLoadEnd (length (readers oneImageComposer)))) c1 in
     sent c2
     = sent c1 ++ [(value oneImageComposer, Some (map encode [pngFile]))]
     ∧ value c2 = "" ∧ selectedImages c2 = [] ∧ imagePreviews c2 = [])
  ∧ sent (@run samplePlatform
            [ClickSend; Input "more"; PickFiles (Some [jpegFile]);
             ReaderLoadEnd 0]
            oneImageComposer)
    = [("", Some [encode pngFile])].
Proof.
  split; [reflexivity|]. split; [reflexivity|]. split.
  - apply (@send_uses_draft_of_click samplePlatform oneImageComposer
             pngFile [] [Input "more"; PickFiles (Some [jpegFile])]);
      [reflexivity | reflexivity | repeat constructor].
  - vm_compute. reflexivity.
Defined.

(** Two images attached, the send started and the first read completed:
    the suspended send completes with the second read. *)
Lemma suspended_send_completes_witness :
  readers (@run samplePlatform
             [PickFiles (Some [pngFile; jpegFile]); ClickSend;
              ReaderLoadEnd 0]
             (@mount samplePlatform "" false "gemini-2.5-flash")) !! 0%nat
  = Some (mkSendTask "" [jpegFile] [encode pngFile])
  ∧ (let c := @run samplePlatform
                [PickFiles (Some [pngFile; jpegFile]); ClickSend;
                 ReaderLoadEnd 0]
                (@mount samplePlatform "" false "gemini-2.5-flash") in
     let t := mkSendTask "" [jpegFile] [encode pngFile] in
     let c' := Nat.iter (length (task_files t))
                 (@step samplePlatform (ReaderLoadEnd 0)) c in
     sent c'
     = sent c ++ [(task_value t,
                   Some (task_parts t ++ map encode (task_files t)))]
     ∧ readers c' = delete 0%nat (readers c))
  ∧ sent (@run samplePlatform
            [PickFiles (Some [pngFile; jpegFile]); ClickSend;
             ReaderLoadEnd 0; ReaderLoadEnd 0] freshComposer)
    = [("", Some [encode pngFile; encode jpegFile])].
Proof.
  assert (L : readers (@run samplePlatform
                         [PickFiles (Some [pngFile; jpegFile]); ClickSend;
                          ReaderLoadEnd 0]
                         (@mount samplePlatform "" false "gemini-2.5-flash"))
              !! 0%nat
              = Some (mkSendTask "" [jpegFile] [encode pngFile]))
    by (vm_compute; reflexivity).
  split; [exact L|]. split.
  - exact (@suspended_send_completes samplePlatform
             [PickFiles (Some [pngFile; jpegFile]); ClickSend;
              ReaderLoadEnd 0]
             "" false "gemini-2.5-flash" 0%nat
             (mkSendTask "" [jpegFile] [encode pngFile]) L).
  - vm_compute. reflexivity.
Defined.

(** "Hello" sent: nothing is left to send, loading or not. *)
Lemma completed_send_closes_guard_witness :
  sendGate helloComposer = false
  ∧ handleSend
      (set_isLoading (@sendAndAwait samplePlatform helloComposer) false)
    = set_isLoading (@sendAndAwait samplePlatform helloComposer) false.
Proof.
  split; [reflexivity|].
  exact (proj2 (@completed_send_closes_guard samplePlatform helloComposer
                  false eq_refl)).
Defined.


(** A browser without speech recognition: the microphone does nothing. *)
Lemma microphone_inert_without_speech_witness :
  @hasSpeechRecognition silentPlatform = false
  ∧ @step silentPlatform ClickMic
      (@mount silentPlatform "" false "gemini-2.5-flash")
    = @mount silentPlatform "" false "gemini-2.5-flash".
Proof.
  split; [reflexivity|].
  destruct (@microphone_inert_without_speech silentPlatform []
              "" false "gemini-2.5-flash" eq_refl) as (_ & _ & _ & H).
  exact H.
Defined.

(** Dictation of "hello" into the freshly rendered composer. *)
Lemma undisturbed_dictation_appends_witness :
  showsSendButton freshComposer = false
  ∧ value (@run samplePlatform
             [ClickMic; RecognitionStart; RecognitionResult "hello";
              RecognitionEnd] freshComposer) = "hello"
  ∧ isListening (@run samplePlatform
                   [ClickMic; RecognitionStart; RecognitionResult "hello";
                    RecognitionEnd] freshComposer) = false.
Proof.
  destruct (@undisturbed_dictation_appends samplePlatform []
              "" false "gemini-2.5-flash" "hello"
              eq_refl eq_refl eq_refl eq_refl) as (_ & Hv & Hl & _).
  split; [reflexivity|]. split; [exact Hv | exact Hl].
Defined.

(** With "Hello" typed, an outside click leaves the selector alone. *)
Lemma selector_frozen_while_drafting_witness :
  showsSendButton helloComposer = true
  ∧ showModelDropdown (@step samplePlatform MouseDownOutside helloComposer)
    = showModelDropdown helloComposer.
Proof.
  split; [reflexivity|].
  exact (proj2 (@selector_frozen_while_drafting samplePlatform
                  MouseDownOutside helloComposer eq_refl)).
Defined.

(** The sample PNG file. *)
Lemma base64_of_data_url_witness :
  containsChar "," "data:image/png;base64" = false
  ∧ base64_of pngFile = Some "iVBORw0KGgo=".
Proof.
  split; [reflexivity|].
  exact (proj1 (base64_of_data_url "image/png" "data:image/png;base64"
                  eq_refl) "iVBORw0KGgo=" eq_refl).
Defined.
